(** * Pourbaix diagrams for 2D materials

    A shallow embedding of [twod_materials/pourbaix/analysis.py]: the
    duplicate filter [contains_entry] and [Pourbaix2D.make_plot], which
    builds the Pourbaix entries of a compound and of its ions, asks the
    diagram analyzer for the compound's energy above the hull and saves
    the plot.

    Conventions of the embedding.
    - Python floats are exact rationals ([Q]); equality of two computed
      numbers is [==] ([Qeq]).
    - A Python [dict] is an association list in insertion order with
      unique keys; [d[k]] on an absent key raises [KeyError].
    - The classes and functions that [analysis.py] imports from pymatgen
      are the fields of the class [Pymatgen]; the tables it loads from
      YAML files are the fields of the record [RefData]. *)

From Stdlib Require Import List String Bool Arith Lia DecimalString.
From Stdlib Require Import QArith Qabs Qminmax Lqa.
Import ListNotations.

Local Open Scope Q_scope.

(** ** Exceptions *)

(** The only exception [make_plot] raises by itself is the [KeyError] of
    a failed table lookup. *)
Inductive result (A : Type) : Type :=
| Ok (a : A)
| KeyError (key : string).

Arguments Ok {A} a.
Arguments KeyError {A} key.

Definition bind {A B : Type} (r : result A) (f : A -> result B) : result B :=
  match r with
  | Ok a => f a
  | KeyError k => KeyError k
  end.

Notation "x <- r ;; k" := (bind r (fun x => k))
  (at level 61, r at next level, right associativity).

(** ** Dictionaries *)

Definition dict (V : Type) : Type := list (string * V).

Fixpoint dict_get {V : Type} (d : dict V) (k : string) : option V :=
  match d with
  | [] => None
  | (k', v) :: rest => if String.eqb k' k then Some v else dict_get rest k
  end.

(** [d[k]] *)
Definition getitem {V : Type} (d : dict V) (k : string) : result V :=
  match dict_get d k with
  | Some v => Ok v
  | None => KeyError k
  end.

(** [d[k] = v]: an existing key keeps its place. *)
Fixpoint dict_set {V : Type} (d : dict V) (k : string) (v : V) : dict V :=
  match d with
  | [] => [(k, v)]
  | (k', v') :: rest =>
      if String.eqb k' k then (k', v) :: rest
      else (k', v') :: dict_set rest k v
  end.

(** [d.update(other)] *)
Definition dict_update {V : Type} (d other : dict V) : dict V :=
  fold_left (fun acc kv => dict_set acc (fst kv) (snd kv)) other d.

Definition keys {V : Type} (d : dict V) : list string := map fst d.

(** ** Numbers *)

Definition Qlt_bool (x y : Q) : bool := negb (Qle_bool y x).

(** [x != 0], also the truth value of a float. *)
Definition nonzero (x : Q) : bool := negb (Qeq_bool x 0).

Definition Qsum (l : list Q) : Q := fold_right Qplus 0 l.

(** ** The pymatgen objects the module works with *)

(** [Composition]: element symbol to amount; [c[el]] is 0 for an element
    that does not occur. *)
Definition Composition : Type := dict Q.

Definition amount (c : Composition) (el : string) : Q :=
  match dict_get c el with
  | Some a => a
  | None => 0
  end.

Definition elements (c : Composition) : list string := keys c.

Definition num_atoms (c : Composition) : Q := Qsum (map snd c).

(** Modelled from the spec: pymatgen's [ComputedEntry] is not part of the
    repository.  An entry is a composition, a total energy and a scalar
    correction applied additively to the energy;
    [ComputedEntry(composition, energy)] starts with correction 0 and no
    identifier. *)
Record ComputedEntry : Type := mkComputedEntry {
  ce_composition : Composition;
  ce_uncorrected_energy : Q;
  ce_correction : Q;
  ce_entry_id : option string
}.

Definition new_ComputedEntry (c : Composition) (energy : Q) : ComputedEntry :=
  {| ce_composition := c; ce_uncorrected_energy := energy;
     ce_correction := 0; ce_entry_id := None |}.

Definition ce_energy (e : ComputedEntry) : Q :=
  ce_uncorrected_energy e + ce_correction e.

(** [Ion]: a composition with a net charge. *)
Record Ion : Type := mkIon {
  ion_composition : Composition;
  ion_charge : Q
}.

(** [IonEntry(ion, energy)] *)
Record IonEntry : Type := mkIonEntry {
  ie_ion : Ion;
  ie_energy : Q
}.

Inductive phase : Type := Solid | IonPhase.

(** Modelled from the spec: pymatgen's [PourbaixEntry] is not part of the
    repository.  A Pourbaix entry is derived from an entry and carries the
    reference free energy (the energy plus the correction), the numbers of
    H and O atoms, the net charge, the concentration and a display name,
    which are the attributes [make_plot] and [contains_entry] read and
    write. *)
Record PourbaixEntry : Type := mkPourbaixEntry {
  composition : Composition;
  phase_type : phase;
  uncorrected_energy : Q;
  correction : Q;
  conc : Q;
  name : string;
  nH : Q;
  nO : Q;
  charge : Q;
  entry_id : option string
}.

Definition energy (e : PourbaixEntry) : Q := uncorrected_energy e + correction e.

Definition g0 (e : PourbaixEntry) : Q := energy e.

Definition energy_per_atom (e : PourbaixEntry) : Q :=
  energy e / num_atoms (composition e).

(** [entry.g0_replace(term)] *)
Definition g0_replace (e : PourbaixEntry) (term : Q) : PourbaixEntry :=
  {| composition := composition e; phase_type := phase_type e;
     uncorrected_energy := term; correction := correction e;
     conc := conc e; name := name e; nH := nH e; nO := nO e;
     charge := charge e; entry_id := entry_id e |}.

(** [entry.correction = x], [entry.conc = x], [entry.name = x] *)
Definition set_correction (e : PourbaixEntry) (x : Q) : PourbaixEntry :=
  {| composition := composition e; phase_type := phase_type e;
     uncorrected_energy := uncorrected_energy e; correction := x;
     conc := conc e; name := name e; nH := nH e; nO := nO e;
     charge := charge e; entry_id := entry_id e |}.

Definition set_conc (e : PourbaixEntry) (x : Q) : PourbaixEntry :=
  {| composition := composition e; phase_type := phase_type e;
     uncorrected_energy := uncorrected_energy e; correction := correction e;
     conc := x; name := name e; nH := nH e; nO := nO e;
     charge := charge e; entry_id := entry_id e |}.

Definition set_name (e : PourbaixEntry) (x : string) : PourbaixEntry :=
  {| composition := composition e; phase_type := phase_type e;
     uncorrected_energy := uncorrected_energy e; correction := correction e;
     conc := conc e; name := x; nH := nH e; nO := nO e;
     charge := charge e; entry_id := entry_id e |}.

(** What [analysis.py] takes from pymatgen and from Python without
    defining it: formula printing and parsing, the normalisation of an
    entry to its reduced formula, the decimal logarithm and the chemical
    potential of water of the free-energy expression, the printing of a
    number by [str.format], and the plotter's choice of the entries that
    own a region of the plot (by position in the entry list). *)
Class Pymatgen : Type := {
  reduced_formula : Composition -> string;
  default_name : Composition -> string;
  Ion_from_formula : string -> Ion;
  reduced_entry : PourbaixEntry -> PourbaixEntry;
  log10 : Q -> Q;
  MU_H2O : Q;
  format_number : Q -> string;
  stable_in_plot : list PourbaixEntry -> nat -> bool
}.

(** The tables loaded from [ions.yaml], [end_members.yaml] and
    [ion_colors.yaml].  An element of [ExpFormEnergy] without ions has an
    empty (or null) record, which is false as a condition; the empty
    dictionary stands for both. *)
Record RefData : Type := mkRefData {
  ExpFormEnergy : dict (dict Q);
  IonCorrection : dict Q;
  END_MEMBERS : dict Q;
  ION_COLORS : dict Q
}.

(** ** The diagram analyzer *)

(** pymatgen's [PourbaixDiagram] and [PourbaixAnalyzer] are not part of
    the repository; the analyzer below follows the spec.  The free energy
    of an entry is an affine function of pH and potential, the hull is the
    pointwise minimum of the free energies of the entries, and the energy
    above the hull of an entry is the minimum, over pH in [0, 14] and
    potential in [-2, 2], of its free energy minus the hull.  That minimum
    is computed exactly, by eliminating the potential and then pH. *)

Definition PREFAC : Q := 591 # 10000.

Definition pH_min : Q := 0.
Definition pH_max : Q := 14.
Definition phi_min : Q := -2.
Definition phi_max : Q := 2.

Definition in_domain (pH phi : Q) : Prop :=
  pH_min <= pH /\ pH <= pH_max /\ phi_min <= phi /\ phi <= phi_max.

Definition Qmax_list (l : list Q) : Q :=
  match l with
  | [] => 0
  | x :: rest => fold_right Qmax x rest
  end.

Definition Qmin_list (l : list Q) : Q :=
  match l with
  | [] => 0
  | x :: rest => fold_right Qmin x rest
  end.

(** A line [(a, b)] is [t |-> a * t + b]; a piece [(a, b, c)] is
    [(x, y) |-> a * x + b * y + c]. *)
Definition line : Type := (Q * Q)%type.
Definition piece : Type := (Q * Q * Q)%type.

Definition eval1 (f : line) (t : Q) : Q := fst f * t + snd f.

Definition eval2 (p : piece) (x y : Q) : Q :=
  fst (fst p) * x + snd (fst p) * y + snd p.

Definition falls_rises (a a' : Q) : bool := Qlt_bool a 0 && Qlt_bool 0 a'.

(** The least value of [max_f f(t)] for [t] in [[l, u]]: the largest of
    the minima of the single lines over the interval and of the heights at
    which a falling line crosses a rising one. *)
Definition ends1 (l u : Q) (fs : list line) : list Q :=
  map (fun f => Qmin (eval1 f l) (eval1 f u)) fs.

Definition cross1 (f g : line) : Q :=
  (fst g * snd f - fst f * snd g) / (fst g - fst f).

Definition crossings1 (fs : list line) : list Q :=
  flat_map (fun f =>
    flat_map (fun g =>
      if falls_rises (fst f) (fst g) then [cross1 f g] else []) fs) fs.

Definition min_max1 (l u : Q) (fs : list line) : Q :=
  Qmax_list (ends1 l u fs ++ crossings1 fs).

(** Where the minimum is reached: the largest of [l] and of the points at
    which the falling lines come down to the height [T]. *)
Definition reach1 (l T : Q) (fs : list line) : Q :=
  fold_right (fun f acc =>
    if Qlt_bool (fst f) 0 then Qmax ((snd f - T) / (- fst f)) acc else acc)
    l fs.

(** The same step on pieces removes [y] and leaves lines in [x]; [slice]
    is a piece at a fixed [x], as a line in [y]. *)
Definition slice (x : Q) (p : piece) : line :=
  (snd (fst p), fst (fst p) * x + snd p).

Definition ends2 (l u : Q) (ps : list piece) : list line :=
  map (fun p => (fst (fst p), snd p + Qmin (snd (fst p) * l) (snd (fst p) * u))) ps.

Definition cross2 (p q : piece) : line :=
  ((snd (fst q) * fst (fst p) - snd (fst p) * fst (fst q))
     / (snd (fst q) - snd (fst p)),
   (snd (fst q) * snd p - snd (fst p) * snd q)
     / (snd (fst q) - snd (fst p))).

Definition crossings2 (ps : list piece) : list line :=
  flat_map (fun p =>
    flat_map (fun q =>
      if falls_rises (snd (fst p)) (snd (fst q)) then [cross2 p q] else []) ps) ps.

Definition min_max2 (lx ux ly uy : Q) (ps : list piece) : Q :=
  min_max1 lx ux (ends2 ly uy ps ++ crossings2 ps).

Section Analyzer.
Context {lib : Pymatgen}.

(** Modelled from the spec: the free energy of an entry,
    [g0 + 0.0591 * log10(conc) - nO * mu(H2O) + (nH - 2 nO) * pH
     + phi * (-nH + 2 nO + q)]. *)
Definition free_energy (e : PourbaixEntry) (pH phi : Q) : Q :=
  g0 e + PREFAC * log10 (conc e) - nO e * MU_H2O
  + (nH e - 2 * nO e) * pH + phi * (- nH e + 2 * nO e + charge e).

(** Modelled from the spec: the hull, the least free energy of an entry at
    a point. *)
Definition hull_energy (entries : list PourbaixEntry) (pH phi : Q) : Q :=
  Qmin_list (map (fun e => free_energy e pH phi) entries).

(** The free energy as a piece in [(pH, phi)]. *)
Definition plane (e : PourbaixEntry) : piece :=
  (nH e - 2 * nO e, - nH e + 2 * nO e + charge e,
   g0 e + PREFAC * log10 (conc e) - nO e * MU_H2O).

Definition piece_sub (p q : piece) : piece :=
  (fst (fst p) - fst (fst q), snd (fst p) - snd (fst q), snd p - snd q).

(** Modelled from the spec: [PourbaixAnalyzer.get_e_above_hull], the
    minimum over the domain of the free energy of [entry] minus the hull,
    that is of the largest difference between the plane of [entry] and the
    plane of an entry of the diagram ([e_above_hull_is_minimum] below). *)
Definition get_e_above_hull (entries : list PourbaixEntry)
    (entry : PourbaixEntry) : Q :=
  min_max2 pH_min pH_max phi_min phi_max
    (map (fun e => piece_sub (plane entry) (plane e)) entries).
End Analyzer.

(** ** [analysis.py] *)

Section Analysis.
Context {lib : Pymatgen}.
Variable db : RefData.

(** *** [contains_entry] *)

Definition id_eqb (a b : option string) : bool :=
  match a, b with
  | None, None => true
  | Some x, Some y => String.eqb x y
  | _, _ => false
  end.

(** The condition of the loop body. *)
Definition same_entry (ent entry : PourbaixEntry) : bool :=
  id_eqb (entry_id ent) (entry_id entry)
  || (Qlt_bool (Qabs (energy_per_atom entry - energy_per_atom ent)) (1 # 1000000)
      && String.eqb (reduced_formula (composition entry))
                    (reduced_formula (composition ent))).

(** The function returns [True] from inside the loop and falls off its
    end otherwise, which yields [None]; the result is read as a truth
    value. *)
Fixpoint contains_entry (entry_list : list PourbaixEntry)
    (entry : PourbaixEntry) : bool :=
  match entry_list with
  | [] => false
  | ent :: rest =>
      if same_entry ent entry then true else contains_entry rest entry
  end.

(** *** [Pourbaix2D] *)

Record Pourbaix2D : Type := mkPourbaix2D {
  _composition : Composition;
  _energy : Q
}.

(** Modelled from the spec: [PourbaixEntry(entry)] for a computed (solid)
    entry and for an ion entry.  The default concentration is 1 for a
    solid and 1e-6 for an ion, as the comments of [make_plot] also say; a
    solid has no charge and a new entry no correction. *)
Definition PourbaixEntry_solid (e : ComputedEntry) : PourbaixEntry :=
  {| composition := ce_composition e; phase_type := Solid;
     uncorrected_energy := ce_energy e; correction := 0;
     conc := 1; name := default_name (ce_composition e);
     nH := amount (ce_composition e) "H";
     nO := amount (ce_composition e) "O";
     charge := 0; entry_id := ce_entry_id e |}.

Definition PourbaixEntry_ion (e : IonEntry) : PourbaixEntry :=
  {| composition := ion_composition (ie_ion e); phase_type := IonPhase;
     uncorrected_energy := ie_energy e; correction := 0;
     conc := 1 # 1000000; name := default_name (ion_composition (ie_ion e));
     nH := amount (ion_composition (ie_ion e)) "H";
     nO := amount (ion_composition (ie_ion e)) "O";
     charge := ion_charge (ie_ion e); entry_id := None |}.

(** [elt in ['O', 'H']] *)
Definition in_OH (elt : string) : bool :=
  String.eqb elt "O" || String.eqb elt "H".

Definition chemsys (cmpd : ComputedEntry) : list string :=
  ["O"; "H"]%string
  ++ filter (fun elt => negb (in_OH elt)) (elements (ce_composition cmpd)).

(** The loop that fills [ion_dict]: [exp_dict[elt]] is read for every
    element other than O and H, and merged when it is not empty. *)
Fixpoint pick_ions (elts : list string) (ion_dict : dict Q) : result (dict Q) :=
  match elts with
  | [] => Ok ion_dict
  | elt :: rest =>
      if negb (in_OH elt) then
        ions <- getitem (ExpFormEnergy db) elt ;;
        match ions with
        | [] => pick_ions rest ion_dict
        | _ :: _ => pick_ions rest (dict_update ion_dict ions)
        end
      else pick_ions rest ion_dict
  end.

(** [cmpd.correction -= float(num_atoms) * float(metastability) / 1000.0] *)
Definition add_metastability (cmpd : ComputedEntry) (metastability : Q)
    : ComputedEntry :=
  {| ce_composition := ce_composition cmpd;
     ce_uncorrected_energy := ce_uncorrected_energy cmpd;
     ce_correction :=
       ce_correction cmpd
       - num_atoms (ce_composition cmpd) * metastability / 1000;
     ce_entry_id := ce_entry_id cmpd |}.

(** The loop over the elements of the composition that turns the energy
    into a formation energy. *)
Fixpoint subtract_end_members (elts : list string) (cmpd : ComputedEntry)
    (form_energy : Q) : result Q :=
  match elts with
  | [] => Ok form_energy
  | elt :: rest =>
      e <- getitem (END_MEMBERS db) elt ;;
      subtract_end_members rest cmpd
        (form_energy - e * amount (ce_composition cmpd) elt)
  end.

(** The body of the inner loop over [ion_dict] for one element: the
    entry appended for [key], if any. *)
Definition ion_entry (elt key : string) (energy ion_concentration : Q)
    : result (option PourbaixEntry) :=
  let comp := Ion_from_formula key in
  if nonzero (amount (ion_composition comp) elt) then
    let factor := amount (ion_composition comp) elt in
    c <- getitem (IonCorrection db) elt ;;
    let pbx_entry_ion := PourbaixEntry_ion (mkIonEntry comp energy) in
    let pbx_entry_ion := set_correction pbx_entry_ion (c * factor) in
    let pbx_entry_ion := set_conc pbx_entry_ion ion_concentration in
    let pbx_entry_ion := set_name pbx_entry_ion key in
    Ok (Some pbx_entry_ion)
  else Ok None.

Fixpoint ion_loop_keys (elt : string) (ion_dict : dict Q)
    (ion_concentration : Q) (pbx_ion_entries : list PourbaixEntry)
    : result (list PourbaixEntry) :=
  match ion_dict with
  | [] => Ok pbx_ion_entries
  | (key, energy) :: rest =>
      o <- ion_entry elt key energy ion_concentration ;;
      match o with
      | Some e => ion_loop_keys elt rest ion_concentration (pbx_ion_entries ++ [e])
      | None => ion_loop_keys elt rest ion_concentration pbx_ion_entries
      end
  end.

Fixpoint ion_loop (elts : list string) (ion_dict : dict Q)
    (ion_concentration : Q) (pbx_ion_entries : list PourbaixEntry)
    : result (list PourbaixEntry) :=
  match elts with
  | [] => Ok pbx_ion_entries
  | elt :: rest =>
      l <- ion_loop_keys elt ion_dict ion_concentration pbx_ion_entries ;;
      ion_loop rest ion_dict ion_concentration l
  end.

(** The compound entry after the metastability correction. *)
Definition compound (self : Pourbaix2D) (metastability : Q) : ComputedEntry :=
  add_metastability (new_ComputedEntry (_composition self) (_energy self))
    metastability.

Definition form_energy (self : Pourbaix2D) (metastability : Q) : result Q :=
  let cmpd := compound self metastability in
  subtract_end_members (keys (_composition self)) cmpd (ce_energy cmpd).

(** [make_plot] up to [all_entries]: the compound's Pourbaix entry and
    the list of ion entries. *)
Definition make_entries (self : Pourbaix2D) (metastability ion_concentration : Q)
    : result (PourbaixEntry * list PourbaixEntry) :=
  let cmpd := new_ComputedEntry (_composition self) (_energy self) in
  let chemsys := chemsys cmpd in
  ion_dict <- pick_ions chemsys [] ;;
  let elements := filter (fun elt => negb (in_OH elt)) chemsys in
  let cmpd := compound self metastability in
  form_energy <- form_energy self metastability ;;
  let pbx_cmpd := PourbaixEntry_solid cmpd in
  let pbx_cmpd := g0_replace pbx_cmpd form_energy in
  let pbx_cmpd := reduced_entry pbx_cmpd in
  pbx_ion_entries <- ion_loop elements ion_dict ion_concentration [] ;;
  Ok (pbx_cmpd, pbx_ion_entries).

Definition all_entries (pbx_cmpd : PourbaixEntry)
    (pbx_ion_entries : list PourbaixEntry) : list PourbaixEntry :=
  [pbx_cmpd] ++ pbx_ion_entries.

(** The entries that own a region of the plot, by position in
    [all_entries]; position 0 is [pbx_cmpd]. *)
Definition stable_entries (entries : list PourbaixEntry) : list nat :=
  filter (stable_in_plot entries) (seq 0 (List.length entries)).

(** The colouring loop: every stable entry other than [pbx_cmpd] has
    its colour looked up by reduced formula. *)
Fixpoint color_patches (entries : list PourbaixEntry) (stable : list nat)
    : result unit :=
  match stable with
  | [] => Ok tt
  | i :: rest =>
      match i, nth_error entries i with
      | S _, Some entry =>
          _ <- getitem (ION_COLORS db) (reduced_formula (composition entry)) ;;
          color_patches entries rest
      | _, _ => color_patches entries rest
      end
  end.

(** The name given to [savefig]. *)
Definition plot_file (self : Pourbaix2D) (metastability : Q) : string :=
  if nonzero metastability then
    (reduced_formula (_composition self) ++ "_"
     ++ format_number metastability ++ "meV.pdf")%string
  else (reduced_formula (_composition self) ++ ".pdf")%string.

(** [make_plot]: the returned instability and the files written.  All
    table lookups precede [savefig], so a [KeyError] leaves no file. *)
Definition make_plot (self : Pourbaix2D) (metastability ion_concentration : Q)
    : result (Q * list string) :=
  entries <- make_entries self metastability ion_concentration ;;
  let pbx_cmpd := fst entries in
  let all_entries := all_entries pbx_cmpd (snd entries) in
  let instability := get_e_above_hull all_entries pbx_cmpd in
  _ <- color_patches all_entries (stable_entries all_entries) ;;
  Ok (instability, [plot_file self metastability]).
End Analysis.

(** ** Vocabulary of the statements *)

Section Vocabulary.
Context {lib : Pymatgen}.

(** Two outcomes agree: the same number up to [==], or the same error. *)
Definition result_Qeq (r1 r2 : result Q) : Prop :=
  match r1, r2 with
  | Ok a, Ok b => a == b
  | KeyError k1, KeyError k2 => k1 = k2
  | _, _ => False
  end.

(** The entries one pass of the inner loop appends for [elt]. *)
Definition appended (db : RefData) (elt : string) (ion_concentration : Q)
    (ion_dict : dict Q) : list PourbaixEntry :=
  flat_map (fun kv =>
    match ion_entry db elt (fst kv) (snd kv) ion_concentration with
    | Ok (Some e) => [e]
    | _ => []
    end) ion_dict.

Definition known {V : Type} (d : dict V) (k : string) : bool :=
  match dict_get d k with
  | Some _ => true
  | None => false
  end.

(** Everything [make_plot] looks up for this compound is tabulated: an
    end member for each element, a record of ions (possibly empty) for
    each element other than O and H, and for each recorded ion a colour
    and the correction of each element of the compound it contains. *)
Definition ion_covered (db : RefData) (elts : list string) (key : string) : bool :=
  known (ION_COLORS db)
    (reduced_formula (ion_composition (Ion_from_formula key)))
  && forallb (fun elt =>
       implb (nonzero (amount (ion_composition (Ion_from_formula key)) elt))
             (known (IonCorrection db) elt)) elts.

Definition tables_cover (db : RefData) (self : Pourbaix2D) : bool :=
  let elts := filter (fun elt => negb (in_OH elt)) (elements (_composition self)) in
  forallb (known (END_MEMBERS db)) (elements (_composition self))
  && forallb (fun elt =>
       match dict_get (ExpFormEnergy db) elt with
       | Some ions => forallb (ion_covered db elts) (keys ions)
       | None => false
       end) elts.

(** No entry of the list repeats an earlier one, in the sense of
    [contains_entry]. *)
Definition duplicate_free (entries : list PourbaixEntry) : Prop :=
  forall (i j : nat) (a b : PourbaixEntry),
    (i < j)%nat -> nth_error entries i = Some a -> nth_error entries j = Some b ->
    same_entry a b = false.

(** Normalising an entry keeps the order of free energies: a lower
    reference energy gives a free energy that is nowhere higher. *)
Definition keeps_order (normalise : PourbaixEntry -> PourbaixEntry) : Prop :=
  forall (e : PourbaixEntry) (x y pH phi : Q),
    x <= y ->
    free_energy (normalise (g0_replace e x)) pH phi
    <= free_energy (normalise (g0_replace e y)) pH phi.

(** The entry is at or below every entry of the list at this point. *)
Definition on_hull_at (entries : list PourbaixEntry) (c : PourbaixEntry)
    (pH phi : Q) : Prop :=
  forall e, In e entries -> free_energy c pH phi <= free_energy e pH phi.
End Vocabulary.

(** ** A small world to run the code in

    A stand-in for pymatgen on formulas that are already reduced, and
    reference tables in the layout of the YAML files. *)

Module Sample.

Definition digits (p : positive) : Z :=
  Z.of_nat (Decimal.nb_digits (Pos.to_uint p)).

(** Decimal order of magnitude of a positive rational: the exact
    logarithm at the powers of ten. *)
Definition magnitude (q : Q) : Q :=
  match Qnum q with
  | Zpos n => inject_Z (digits n - digits (Qden q))
  | _ => 0
  end.

Definition print_Z (z : Z) : string :=
  DecimalString.NilZero.string_of_int (Z.to_int z).

(** Integer amounts and integral floats print as Python prints them. *)
Definition print_number (q : Q) : string :=
  match Qden (Qred q) with
  | xH => (print_Z (Qnum (Qred q)) ++ ".0")%string
  | d => (print_Z (Qnum (Qred q)) ++ "/" ++ print_Z (Zpos d))%string
  end.

Definition print_amount (q : Q) : string :=
  if Qeq_bool q 1 then ""%string else print_Z (Qnum (Qred q)).

Definition print_formula (c : Composition) : string :=
  fold_right (fun kv acc => (fst kv ++ print_amount (snd kv) ++ acc)%string)
    ""%string c.

Definition parse_ion (key : string) : Ion :=
  if String.eqb key "MoO4[2-]" then
    mkIon [("Mo"%string, 1); ("O"%string, 4)] (-2)
  else if String.eqb key "SO4[2-]" then
    mkIon [("S"%string, 1); ("O"%string, 4)] (-2)
  else if String.eqb key "HS[-]" then
    mkIon [("H"%string, 1); ("S"%string, 1)] (-1)
  else if String.eqb key "MoS4[2-]" then
    mkIon [("Mo"%string, 1); ("S"%string, 4)] (-2)
  else mkIon [] 0.

Definition mu_H2O : Q := - (24583 # 10000).

(** First every entry counts as plotted; the instance below plots the
    entries that reach the hull somewhere. *)
Definition lib0 : Pymatgen :=
  {| reduced_formula := print_formula;
     default_name := print_formula;
     Ion_from_formula := parse_ion;
     reduced_entry := fun e => e;
     log10 := magnitude;
     MU_H2O := mu_H2O;
     format_number := print_number;
     stable_in_plot := fun _ _ => true |}.

Definition on_hull (entries : list PourbaixEntry) (i : nat) : bool :=
  match nth_error entries i with
  | Some e => Qeq_bool (@get_e_above_hull lib0 entries e) 0
  | None => false
  end.

#[export] Instance lib : Pymatgen :=
  {| reduced_formula := print_formula;
     default_name := print_formula;
     Ion_from_formula := parse_ion;
     reduced_entry := fun e => e;
     log10 := magnitude;
     MU_H2O := mu_H2O;
     format_number := print_number;
     stable_in_plot := on_hull |}.

Definition ions_yaml : dict (dict Q) :=
  [("Mo"%string, [("MoO4[2-]"%string, - (87 # 10))]);
   ("S"%string, [("SO4[2-]"%string, - (77 # 10)); ("HS[-]"%string, 12 # 100)]);
   ("W"%string, [])].

Definition db : RefData :=
  {| ExpFormEnergy := ions_yaml;
     IonCorrection := [("Mo"%string, 3 # 10); ("S"%string, 2 # 10)];
     END_MEMBERS := [("Mo"%string, - (109 # 10)); ("S"%string, - (41 # 10));
                     ("W"%string, - (13 # 1))];
     ION_COLORS := [("MoO4"%string, 1 # 10); ("SO4"%string, 2 # 10);
                    ("HS"%string, 3 # 10); ("MoS4"%string, 4 # 10)] |}.

(** A table with an ion of two elements of the compound whose
    corrections coincide. *)
Definition db_thio : RefData :=
  {| ExpFormEnergy := [("Mo"%string, [("MoS4[2-]"%string, - (5 # 1))]);
                       ("S"%string, [])];
     IonCorrection := [("Mo"%string, 4 # 10); ("S"%string, 1 # 10)];
     END_MEMBERS := END_MEMBERS db;
     ION_COLORS := ION_COLORS db |}.

Definition MoS2 (energy : Q) : Pourbaix2D :=
  mkPourbaix2D [("Mo"%string, 1); ("S"%string, 2)] energy.

Definition WS2 (energy : Q) : Pourbaix2D :=
  mkPourbaix2D [("W"%string, 1); ("S"%string, 2)] energy.

Definition c6 : Q := 1 # 1000000.

(** The ion entry of thiomolybdate as [PourbaixEntry] first makes it. *)
Definition thio : PourbaixEntry :=
  PourbaixEntry_ion (mkIonEntry (parse_ion "MoS4[2-]") (- (5 # 1))).

(** [db] with the correction factor of Mo doubled. *)
Definition db_double : RefData :=
  {| ExpFormEnergy := ExpFormEnergy db;
     IonCorrection := [("Mo"%string, 6 # 10); ("S"%string, 2 # 10)];
     END_MEMBERS := END_MEMBERS db;
     ION_COLORS := ION_COLORS db |}.

End Sample.

(** ** [utils.py]

    The helpers of [twod_materials/utils.py] that read and write the files
    of a calculation: [get_status], [get_spacing] and [write_potcar].

    Conventions of the embedding.
    - The file system is a table from paths to lists of lines; two
      different paths name two different files, and what is written to a
      file is in it at once.  Printed lines are collected in [stdout].
    - A function of the module is a computation of type [M]: it takes the
      world, changes it and returns a value or raises an exception.
    - What the module takes from outside is a parameter: the table of
      [potcar_symbols.yaml], Python's [float], the number of sites
      pymatgen reads from POSCAR, and the lines the queue prints.
    - [write_potcar] is given a list of types or nothing, which stands
      for the default ['None']. *)

From Stdlib Require Import Ascii.

Module Utils.

(** ** Python text *)

(** The characters [str.split()] and [str.strip()] treat as blank. *)
Definition is_space (c : ascii) : bool :=
  let n := nat_of_ascii c in
  Nat.eqb n 32 || (Nat.leb 9 n && Nat.leb n 13).

(** [s.split()]: the maximal runs of characters that are not blank. *)
Fixpoint split_run (s : string) : string * list string :=
  match s with
  | EmptyString => (EmptyString, [])
  | String c rest =>
      let (cur, acc) := split_run rest in
      if is_space c then
        (EmptyString, match cur with EmptyString => acc | _ => cur :: acc end)
      else (String c cur, acc)
  end.

Definition split (s : string) : list string :=
  let (cur, acc) := split_run s in
  match cur with EmptyString => acc | _ => cur :: acc end.

Fixpoint lstrip (s : string) : string :=
  match s with
  | EmptyString => EmptyString
  | String c rest => if is_space c then lstrip rest else s
  end.

Fixpoint rstrip (s : string) : string :=
  match s with
  | EmptyString => EmptyString
  | String c rest =>
      match rstrip rest with
      | EmptyString => if is_space c then EmptyString else String c EmptyString
      | r => String c r
      end
  end.

(** [s.strip()] *)
Definition strip (s : string) : string := rstrip (lstrip s).

(** [sub in s] *)
Fixpoint contains (sub s : string) : bool :=
  String.prefix sub s
  || match s with
     | EmptyString => false
     | String _ rest => contains sub rest
     end.

(** [s.split(sep)] for a separator of one character. *)
Fixpoint split_on (sep : ascii) (s : string) : list string :=
  match s with
  | EmptyString => [EmptyString]
  | String c rest =>
      if Ascii.eqb c sep then EmptyString :: split_on sep rest
      else match split_on sep rest with
           | h :: t => String c h :: t
           | [] => [String c EmptyString]
           end
  end.

(** [s[:-n]] for [n > 0]. *)
Definition drop_last (n : nat) (s : string) : string :=
  substring 0 (String.length s - n) s.


(** ** Exceptions, files and output *)

Inductive exception : Type :=
| IOError (path : string)
| IndexError
| KeyErr (key : string)
| ValueError.

Inductive outcome (A : Type) : Type :=
| Returned (a : A)
| Raised (e : exception).

Arguments Returned {A} a.
Arguments Raised {A} e.

(** The files of the working directory and of the potential directory, by
    path, each a list of lines, and the lines printed so far. *)
Record world : Type := mkWorld {
  files : list (string * list string);
  stdout : list string
}.

Fixpoint lookup {V : Type} (d : list (string * V)) (k : string) : option V :=
  match d with
  | [] => None
  | (k', v) :: rest => if String.eqb k' k then Some v else lookup rest k
  end.

Fixpoint store {V : Type} (d : list (string * V)) (k : string) (v : V)
    : list (string * V) :=
  match d with
  | [] => [(k, v)]
  | (k', v') :: rest =>
      if String.eqb k' k then (k', v) :: rest else (k', v') :: store rest k v
  end.

(** A computation reads and changes the world and returns or raises. *)
Definition M (A : Type) : Type := world -> world * outcome A.

Definition ret {A : Type} (a : A) : M A := fun w => (w, Returned a).

Definition raise {A : Type} (e : exception) : M A := fun w => (w, Raised e).

Definition bindM {A B : Type} (m : M A) (f : A -> M B) : M B :=
  fun w =>
    match m w with
    | (w', Returned a) => f a w'
    | (w', Raised e) => (w', Raised e)
    end.

Notation "x <~ m ;; k" := (bindM m (fun x => k))
  (at level 61, m at next level, right associativity).

(** [l[i]] *)
Definition index {A : Type} (l : list A) (i : nat) : M A :=
  match nth_error l i with
  | Some x => ret x
  | None => raise IndexError
  end.

(** [open(path).readlines()] *)
Definition readlines (path : string) : M (list string) :=
  fun w =>
    match lookup (files w) path with
    | Some lines => (w, Returned lines)
    | None => (w, Raised (IOError path))
    end.

Definition has_file (w : world) (path : string) : bool :=
  match lookup (files w) path with
  | Some _ => true
  | None => false
  end.

(** The lines of a file, none when it is not there. *)
Definition content (w : world) (path : string) : list string :=
  match lookup (files w) path with
  | Some l => l
  | None => []
  end.

(** [os.path.exists(path)] *)
Definition exists_ (path : string) : M bool :=
  fun w => (w, Returned (has_file w path)).

(** [open(path, 'w')]: the file is created or emptied. *)
Definition open_w (path : string) : M unit :=
  fun w => ({| files := store (files w) path []; stdout := stdout w |}, Returned tt).

(** [f.write(line)] on a file opened for writing. *)
Definition write (path line : string) : M unit :=
  fun w =>
    let old := match lookup (files w) path with Some l => l | None => [] end in
    ({| files := store (files w) path (old ++ [line]); stdout := stdout w |},
     Returned tt).

(** [print line] *)
Definition print (line : string) : M unit :=
  fun w => ({| files := files w; stdout := stdout w ++ [line] |}, Returned tt).

(** ** [write_potcar] *)

Section Potcar.
(** The table of [potcar_symbols.yaml]. *)
Variable potcar_symbols : list (string * string).

Definition potcar_path (pot_path element : string) : string :=
  (pot_path ++ "/" ++ element ++ "/POTCAR")%string.

Definition found (element : string) : string :=
  ("Found one! " ++ element ++ " will work.")%string.

(** The body of the loop over the elements: the name of the potential
    used for [element] with the wanted type. *)
Definition choose (pot_path element type : string) : M string :=
  let element :=
    if String.eqb type "" then element
    else (element ++ "_" ++ type)%string in
  here <~ exists_ (potcar_path pot_path element) ;;
  if here then ret element
  else
    _ <~ print ("Potential file for " ++ element
                ++ " does not exist. Looking for bestvariation... ")%string ;;
    let element :=
      if String.eqb type "regular" then element
      else drop_last (String.length type + 1) element in
    let element := (element ++ "_sv")%string in
    here <~ exists_ (potcar_path pot_path element) ;;
    if here then _ <~ print (found element) ;; ret element
    else
      let element := drop_last 3 element in
      let element := (element ++ "_pv")%string in
      here <~ exists_ (potcar_path pot_path element) ;;
      if here then _ <~ print (found element) ;; ret element
      else
        let element := drop_last 3 element in
        let element := (element ++ "_3")%string in
        here <~ exists_ (potcar_path pot_path element) ;;
        if here then _ <~ print (found element) ;; ret element
        else
          let element := drop_last 2 element in
          here <~ exists_ (potcar_path pot_path element) ;;
          if here then _ <~ print (found element) ;; ret element
          else
            _ <~ print ("No pseudopotential found for " ++ element)%string ;;
            ret element.

(** [for i in range(len(elements))], from index [i] on. *)
Fixpoint choose_all (pot_path : string) (types : list string) (i : nat)
    (elements : list string) : M (list string) :=
  match elements with
  | [] => ret []
  | element :: rest =>
      type <~ index types i ;;
      element <~ choose pot_path element type ;;
      rest <~ choose_all pot_path types (S i) rest ;;
      ret (element :: rest)
  end.

Fixpoint write_lines (path : string) (lines : list string) : M unit :=
  match lines with
  | [] => ret tt
  | line :: rest => _ <~ write path line ;; write_lines path rest
  end.

Fixpoint copy_all (potentials : list string) : M unit :=
  match potentials with
  | [] => ret tt
  | potential :: rest =>
      lines <~ readlines potential ;;
      _ <~ write_lines "POTCAR" lines ;;
      copy_all rest
  end.

(** [str.replace(old, new)] for a non-empty [old]: the occurrences of
    [old] are replaced from left to right; [skip] characters of a match
    are still to be passed over. *)
Fixpoint replace_from (old new : string) (skip : nat) (s : string) : string :=
  match s with
  | EmptyString => EmptyString
  | String c rest =>
      match skip with
      | S n => replace_from old new n rest
      | O =>
          if String.prefix old s then
            (new ++ replace_from old new (String.length old - 1) rest)%string
          else String c (replace_from old new 0 rest)
      end
  end.

Definition replace (old new s : string) : string := replace_from old new 0 s.

Fixpoint default_types (elements : list string) : M (list string) :=
  match elements with
  | [] => ret []
  | elt :: rest =>
      symbol <~ (match lookup potcar_symbols elt with
                 | Some s => ret s
                 | None => raise (KeyErr elt)
                 end) ;;
      types <~ default_types rest ;;
      ret (replace "_" "" (replace elt "" symbol) :: types)
  end.

(** [types] is [None] for the default, the string ['None']. *)
Definition write_potcar (pot_path : string) (types : option (list string))
    : M unit :=
  lines <~ readlines "POSCAR" ;;
  line <~ index lines 5 ;;
  let elements := split line in
  types <~ (match types with
            | None => default_types elements
            | Some types => ret types
            end) ;;
  elements <~ choose_all pot_path types 0 elements ;;
  let potentials := map (potcar_path pot_path) elements in
  _ <~ open_w "POTCAR" ;;
  copy_all potentials.
End Potcar.

(** The names [choose] tries, in order: the element with the wanted type,
    then the stem with [_sv], [_pv] and [_3], then the stem alone. *)
Definition stem (element type : string) : string :=
  if String.eqb type "regular" then (element ++ "_regular")%string
  else if String.eqb type "" then drop_last 1 element
  else element.

Definition candidates (element type : string) : list string :=
  [(if String.eqb type "" then element else element ++ "_" ++ type)%string;
   (stem element type ++ "_sv")%string;
   (stem element type ++ "_pv")%string;
   (stem element type ++ "_3")%string;
   stem element type].

Definition chosen (w : world) (pot_path element type : string) : string :=
  match find (fun c => has_file w (potcar_path pot_path c))
             (candidates element type) with
  | Some c => c
  | None => stem element type
  end.

(** A symbol of the table that [default_types] reads back correctly: the
    element alone, or the element, an underscore and a suffix that holds
    neither an underscore nor the element. *)
Definition plain_symbol (elt symbol : string) : Prop :=
  elt <> EmptyString
  /\ (symbol = elt
      \/ exists suffix, symbol = (elt ++ "_" ++ suffix)%string
           /\ suffix <> EmptyString
           /\ contains elt ("_" ++ suffix) = false
           /\ contains "_" suffix = false).

(** What [choose] prints: nothing when the first name has a file, else
    that it has none and then which name was found, or that none was. *)
Definition messages (w : world) (pot_path element type : string) : list string :=
  if has_file w (potcar_path pot_path (hd ""%string (candidates element type)))
  then []
  else
    [("Potential file for " ++ hd ""%string (candidates element type)
      ++ " does not exist. Looking for bestvariation... ")%string;
     if has_file w (potcar_path pot_path (chosen w pot_path element type))
     then found (chosen w pot_path element type)
     else ("No pseudopotential found for " ++ stem element type)%string].

(** ** [get_spacing] *)

Section Spacing.
(** [float(s)] for a string; [None] stands for [ValueError]. *)
Variable float : string -> option Q.
(** [Structure.from_file('POSCAR').num_sites] *)
Variable num_sites : nat.

Definition to_float (s : string) : M Q :=
  match float s with
  | Some x => ret x
  | None => raise ValueError
  end.

Fixpoint z_coords_of (cutoff : Q) (split_coords : list (list string))
    : M (list Q) :=
  match split_coords with
  | [] => ret []
  | coord :: rest =>
      t <~ index coord 2 ;;
      z_coord <~ to_float t ;;
      let z_coord := if Qlt_bool cutoff z_coord then z_coord - 1 else z_coord in
      z_coords <~ z_coords_of cutoff rest ;;
      ret (z_coord :: z_coords)
  end.

(** [max(l)] and [min(l)] raise [ValueError] on an empty list. *)
Definition py_max (l : list Q) : M Q :=
  match l with
  | [] => raise ValueError
  | _ => ret (Qmax_list l)
  end.

Definition py_min (l : list Q) : M Q :=
  match l with
  | [] => raise ValueError
  | _ => ret (Qmin_list l)
  end.

Definition get_spacing (filename : string) (cutoff : Q) : M Q :=
  lines <~ readlines filename ;;
  line4 <~ index lines 4 ;;
  let c_axis := split line4 in
  line1 <~ index lines 1 ;;
  let lattice_parameter := split line1 in
  let split_coords := map split (firstn num_sites (skipn 8 lines)) in
  z_coords <~ z_coords_of cutoff split_coords ;;
  max_height <~ py_max z_coords ;;
  min_height <~ py_min z_coords ;;
  c <~ index c_axis 2 ;;
  c <~ to_float c ;;
  a <~ index lattice_parameter 0 ;;
  a <~ to_float a ;;
  ret (((1 + min_height) - max_height) * c * a).
End Spacing.

(** ** [get_status] *)

Section Status.
(** The lines that [qstat -f | grep -A 30 USR] prints when it is run. *)
Variable qstat : list string.

(** [os.system("... >> my_jobs.txt")]: the lines are added to the file,
    which is created when it is not there. *)
Definition append_jobs : M unit :=
  fun w =>
    let old := match lookup (files w) "my_jobs.txt" with
               | Some l => l
               | None => []
               end in
    ({| files := store (files w) "my_jobs.txt" (old ++ qstat);
        stdout := stdout w |}, Returned tt).

Fixpoint delete {V : Type} (d : list (string * V)) (k : string)
    : list (string * V) :=
  match d with
  | [] => []
  | (k', v) :: rest =>
      if String.eqb k' k then delete rest k else (k', v) :: delete rest k
  end.

(** [os.system('rm my_jobs.txt')] *)
Definition remove_jobs : M unit :=
  fun w =>
    ({| files := delete (files w) "my_jobs.txt"; stdout := stdout w |},
     Returned tt).

(** [for j in range(i, 0, -1)]: the state of the first line, going up from
    line [j] and stopping before line 0, that mentions [job_state]. *)
Fixpoint find_state (lines : list string) (j : nat) : M (option string) :=
  match j with
  | O => ret None
  | S j' =>
      line <~ index lines j ;;
      if contains "job_state" line then
        field <~ index (split_on "=" line) 1 ;;
        ret (Some (strip field))
      else find_state lines j'
  end.

(** [for i in range(len(lines))], over the indices still to visit. *)
Fixpoint scan (lines : list string) (directory : string) (todo : list nat)
    (job_state : option string) : M (option string) :=
  match todo with
  | [] => ret job_state
  | i :: rest =>
      line <~ index lines i ;;
      if contains "Output_Path" line then
        next <~ index lines (i + 1) ;;
        let joined_line := (strip line ++ strip next)%string in
        if contains directory joined_line then
          state <~ find_state lines i ;;
          scan lines directory rest
            (match state with Some s => Some s | None => job_state end)
        else scan lines directory rest job_state
      else scan lines directory rest job_state
  end.

Definition get_status (directory : string) : M (option string) :=
  _ <~ append_jobs ;;
  lines <~ readlines "my_jobs.txt" ;;
  job_state <~ scan lines directory (seq 0 (List.length lines)) None ;;
  _ <~ remove_jobs ;;
  ret job_state.
End Status.

End Utils.

(** ** More tables and a working directory to run the code in *)

Module Tables.
Import Sample.

(** [db] without colours. *)
Definition db_plain : RefData :=
  {| ExpFormEnergy := ExpFormEnergy db;
     IonCorrection := IonCorrection db;
     END_MEMBERS := END_MEMBERS db;
     ION_COLORS := [] |}.

(** Thiomolybdate recorded under Mo and, with another energy, under S. *)
Definition db_twice : RefData :=
  {| ExpFormEnergy := [("Mo"%string, [("MoS4[2-]"%string, - (5 # 1))]);
                       ("S"%string, [("MoS4[2-]"%string, - (6 # 1))])];
     IonCorrection := [("Mo"%string, 4 # 10); ("S"%string, 1 # 10)];
     END_MEMBERS := END_MEMBERS db;
     ION_COLORS := ION_COLORS db |}.

Definition TiO2 : Pourbaix2D :=
  mkPourbaix2D [("Ti"%string, 1); ("O"%string, 2)] 1.

Definition MoO3 : Pourbaix2D :=
  mkPourbaix2D [("Mo"%string, 1); ("O"%string, 3)] 1.

Definition W_metal : Pourbaix2D := mkPourbaix2D [("W"%string, 1)] 1.
End Tables.

Module Desk.
Import Utils.

Definition nl : string := String (ascii_of_nat 10) EmptyString.

(** A POSCAR of MoS2 with three sites in fractional coordinates. *)
Definition poscar : list string :=
  map (fun s => (s ++ nl)%string)
    ["MoS2";
     "3.18";
     "1.0 0.0 0.0";
     "-0.5 0.866 0.0";
     "0.0 0.0 6.0";
     "Mo S";
     "1 2";
     "direct";
     "0.0 0.0 0.5";
     "0.333 0.667 0.25";
     "0.333 0.667 0.75"]%string.

(** The same cell with W for S on line 6. *)
Definition poscar_W : list string :=
  firstn 5 poscar ++ [("Mo W" ++ nl)%string] ++ skipn 6 poscar.

Definition Mo_pv_lines : list string :=
  [("PAW_PBE Mo_pv" ++ nl)%string; ("End of Dataset" ++ nl)%string].

Definition S_lines : list string :=
  [("PAW_PBE S" ++ nl)%string; ("End of Dataset" ++ nl)%string].

(** A working directory with the POSCAR and a potential directory [pot]
    that has Mo_pv and S, and nothing for W. *)
Definition desk : world :=
  {| files := [("POSCAR"%string, poscar);
               ("pot/Mo_pv/POTCAR"%string, Mo_pv_lines);
               ("pot/S/POTCAR"%string, S_lines)];
     stdout := [] |}.

Definition desk_W : world :=
  {| files := [("POSCAR"%string, poscar_W);
               ("pot/Mo_pv/POTCAR"%string, Mo_pv_lines);
               ("pot/S/POTCAR"%string, S_lines)];
     stdout := [] |}.

Definition symbols : list (string * string) :=
  [("Mo"%string, "Mo_pv"%string); ("S"%string, "S"%string);
   ("W"%string, "W_pv"%string)].

(** A reader of plain decimals, with an optional sign and at least one
    digit, for the numbers of the POSCAR above. *)
Definition digit (c : ascii) : option Z :=
  let n := nat_of_ascii c in
  if Nat.leb 48 n && Nat.leb n 57 then Some (Z.of_nat (n - 48)) else None.

Fixpoint read_decimal (s : string) (num : Z) (den : positive)
    (fraction seen : bool) : option Q :=
  match s with
  | EmptyString => if seen then Some (num # den) else None
  | String c rest =>
      if Ascii.eqb c "." then
        if fraction then None else read_decimal rest num den true seen
      else
        match digit c with
        | Some d =>
            read_decimal rest (10 * num + d)%Z
              (if fraction then (10 * den)%positive else den) fraction true
        | None => None
        end
  end.

Definition decimal (s : string) : option Q :=
  match s with
  | String "-" rest =>
      match read_decimal rest 0 1 false false with
      | Some q => Some (- q)
      | None => None
      end
  | _ => read_decimal s 0 1 false false
  end.

(** What the queue lists for one running job. *)
Definition qstat_running : list string :=
  map (fun s => (s ++ nl)%string)
    ["Job Id: 1234.host";
     "    Job_Name = MoS2";
     "    job_state = R";
     "    Output_Path = host:/home/user/runs/";
     "        MoS2/MoS2.o1234";
     "    Priority = 0"]%string.

(** A listing cut right after the line of the output path. *)
Definition qstat_cut : list string := firstn 4 qstat_running.

(** A listing without any output path. *)
Definition qstat_idle : list string := firstn 3 qstat_running.
End Desk.

(** * Properties *)

(** ** Rational arithmetic *)

Lemma Qlt_bool_iff (x y : Q) : Qlt_bool x y = true <-> x < y.
Proof.
  unfold Qlt_bool. rewrite negb_true_iff. split; intro H.
  - apply Qnot_le_lt. intro L. apply Qle_bool_iff in L. congruence.
  - destruct (Qle_bool y x) eqn:E; [|reflexivity].
    apply Qle_bool_iff in E. lra.
Qed.

Lemma nonzero_iff (x : Q) : nonzero x = true <-> ~ x == 0.
Proof.
  unfold nonzero. rewrite negb_true_iff. split; intro H.
  - intro E. apply Qeq_bool_iff in E. congruence.
  - destruct (Qeq_bool x 0) eqn:E; [|reflexivity].
    apply Qeq_bool_iff in E. contradiction.
Qed.

Lemma Qdiv_1000 (x : Q) : x / 1000 == x * (1 # 1000).
Proof. field. Qed.

Lemma Qdiv_le_elim (a b c : Q) : 0 < b -> a / b <= c -> a <= c * b.
Proof.
  intros Hb H. assert (E : a == (a / b) * b) by (field; lra).
  rewrite E. nra.
Qed.

Lemma Qle_div_elim (a b c : Q) : 0 < b -> c <= a / b -> c * b <= a.
Proof.
  intros Hb H. assert (E : a == (a / b) * b) by (field; lra).
  rewrite E. nra.
Qed.

(** ** Largest and smallest element of a list *)

Lemma fold_Qmax_ge (x : Q) (l : list Q) :
  x <= fold_right Qmax x l /\ forall y, In y l -> y <= fold_right Qmax x l.
Proof.
  induction l as [|z l [IH1 IH2]]; simpl.
  - split; [lra | contradiction].
  - split.
    + eapply Qle_trans; [exact IH1 | apply Q.le_max_r].
    + intros y [<- | Hy]; [apply Q.le_max_l|].
      eapply Qle_trans; [apply IH2, Hy | apply Q.le_max_r].
Qed.

Lemma Qmax_list_ge (l : list Q) (x : Q) : In x l -> x <= Qmax_list l.
Proof.
  destruct l as [|z l]; [contradiction|]. simpl.
  destruct (fold_Qmax_ge z l) as [H1 H2].
  intros [<- | H]; auto.
Qed.

Lemma fold_Qmax_lub (x t : Q) (l : list Q) :
  x <= t -> (forall y, In y l -> y <= t) -> fold_right Qmax x l <= t.
Proof.
  intros Hx. induction l as [|z l IH]; simpl; intros H; [exact Hx|].
  apply Q.max_lub; [apply H; now left | apply IH; intros; apply H; now right].
Qed.

Lemma Qmax_list_lub (l : list Q) (t : Q) :
  l <> [] -> (forall x, In x l -> x <= t) -> Qmax_list l <= t.
Proof.
  destruct l as [|z l]; [congruence|]. intros _ H. simpl.
  apply fold_Qmax_lub; [apply H; now left | intros; apply H; now right].
Qed.

Lemma fold_Qmin_le (x : Q) (l : list Q) :
  fold_right Qmin x l <= x /\ forall y, In y l -> fold_right Qmin x l <= y.
Proof.
  induction l as [|z l [IH1 IH2]]; simpl.
  - split; [lra | contradiction].
  - split.
    + eapply Qle_trans; [apply Q.le_min_r | exact IH1].
    + intros y [<- | Hy]; [apply Q.le_min_l|].
      eapply Qle_trans; [apply Q.le_min_r | apply IH2, Hy].
Qed.

Lemma Qmin_list_le (l : list Q) (x : Q) : In x l -> Qmin_list l <= x.
Proof.
  destruct l as [|z l]; [contradiction|]. simpl.
  destruct (fold_Qmin_le z l) as [H1 H2].
  intros [<- | H]; auto.
Qed.

Lemma fold_Qmin_in (x : Q) (l : list Q) :
  exists y, In y (x :: l) /\ fold_right Qmin x l == y.
Proof.
  induction l as [|z l (y & Hy & E)]; simpl.
  - exists x. split; [now left | reflexivity].
  - destruct (Q.min_dec z (fold_right Qmin x l)) as [D | D].
    + exists z. split; [right; now left | exact D].
    + exists y. split; [|now rewrite D].
      destruct Hy as [<- | Hy]; [now left | right; now right].
Qed.

Lemma Qmin_list_in (l : list Q) :
  l <> [] -> exists y, In y l /\ Qmin_list l == y.
Proof.
  destruct l as [|z l]; [congruence|]. intros _. apply fold_Qmin_in.
Qed.

(** ** The least maximum of lines over an interval *)

Lemma eval1_between (f : line) (l u y : Q) :
  l <= y -> y <= u -> Qmin (eval1 f l) (eval1 f u) <= eval1 f y.
Proof.
  intros Hl Hu. unfold eval1.
  destruct (Qlt_le_dec (fst f) 0) as [N | P].
  - eapply Qle_trans; [apply Q.le_min_r | nra].
  - eapply Qle_trans; [apply Q.le_min_l | nra].
Qed.

Lemma cross1_le (f g : line) (y t : Q) :
  fst f < 0 -> 0 < fst g -> eval1 f y <= t -> eval1 g y <= t ->
  cross1 f g <= t.
Proof.
  unfold eval1, cross1. intros Hf Hg H1 H2.
  apply Qle_shift_div_r; [lra | nra].
Qed.

Lemma in_crossings1 (fs : list line) (v : Q) :
  In v (crossings1 fs) <->
  exists f g, In f fs /\ In g fs /\ fst f < 0 /\ 0 < fst g /\ v = cross1 f g.
Proof.
  unfold crossings1. rewrite in_flat_map. split.
  - intros (f & Hf & H). apply in_flat_map in H. destruct H as (g & Hg & H).
    destruct (falls_rises (fst f) (fst g)) eqn:E; [|contradiction].
    destruct H as [<- | []]. unfold falls_rises in E.
    apply andb_true_iff in E. destruct E as [E1 E2].
    apply Qlt_bool_iff in E1, E2. now exists f, g.
  - intros (f & g & Hf & Hg & H1 & H2 & ->). exists f. split; [exact Hf|].
    apply in_flat_map. exists g. split; [exact Hg|].
    unfold falls_rises. apply Qlt_bool_iff in H1, H2. rewrite H1, H2.
    now left.
Qed.

(** No point of the interval does better than [min_max1]. *)
Lemma min_max1_lower (l u y t : Q) (fs : list line) :
  fs <> [] -> l <= y -> y <= u ->
  (forall f, In f fs -> eval1 f y <= t) ->
  min_max1 l u fs <= t.
Proof.
  intros Hne Hl Hu H. unfold min_max1. apply Qmax_list_lub.
  - destruct fs; [congruence | discriminate].
  - intros v Hv. apply in_app_or in Hv. destruct Hv as [Hv | Hv].
    + unfold ends1 in Hv. apply in_map_iff in Hv. destruct Hv as (f & <- & Hf).
      eapply Qle_trans; [apply eval1_between; eassumption | auto].
    + apply in_crossings1 in Hv.
      destruct Hv as (f & g & Hf & Hg & H1 & H2 & ->).
      apply cross1_le with (y := y); auto.
Qed.

Lemma reach1_ge (l T : Q) (fs : list line) :
  l <= reach1 l T fs
  /\ forall f, In f fs -> fst f < 0 -> (snd f - T) / (- fst f) <= reach1 l T fs.
Proof.
  induction fs as [|g fs [IH1 IH2]]; simpl.
  - split; [lra | contradiction].
  - destruct (Qlt_bool (fst g) 0) eqn:E.
    + split.
      * eapply Qle_trans; [exact IH1 | apply Q.le_max_r].
      * intros f [<- | Hf] Hn; [apply Q.le_max_l|].
        eapply Qle_trans; [apply IH2; assumption | apply Q.le_max_r].
    + split; [exact IH1|].
      intros f [<- | Hf] Hn; [|auto].
      apply Qlt_bool_iff in Hn. congruence.
Qed.

Lemma reach1_lub (l T U : Q) (fs : list line) :
  l <= U ->
  (forall f, In f fs -> fst f < 0 -> (snd f - T) / (- fst f) <= U) ->
  reach1 l T fs <= U.
Proof.
  intros Hl. induction fs as [|g fs IH]; simpl; intros H; [exact Hl|].
  assert (IH' : reach1 l T fs <= U) by (apply IH; intros; apply H; auto).
  destruct (Qlt_bool (fst g) 0) eqn:E; [|exact IH'].
  apply Q.max_lub; [|exact IH'].
  apply H; [now left | now apply Qlt_bool_iff].
Qed.

(** If every line dips to [T] somewhere on the interval and every falling
    line meets every rising one at or below [T], one point of the interval
    has all lines at or below [T]. *)
Lemma lines_below (l u T : Q) (fs : list line) :
  l <= u ->
  (forall f, In f fs -> Qmin (eval1 f l) (eval1 f u) <= T) ->
  (forall f g, In f fs -> In g fs -> fst f < 0 -> 0 < fst g -> cross1 f g <= T) ->
  l <= reach1 l T fs /\ reach1 l T fs <= u
  /\ forall f, In f fs -> eval1 f (reach1 l T fs) <= T.
Proof.
  intros Hlu Hend Hcross.
  destruct (reach1_ge l T fs) as [G1 G2].
  assert (Efall : forall f, In f fs -> fst f < 0 -> eval1 f u <= T).
  { intros f Hf Hn. specialize (Hend f Hf). unfold eval1 in *.
    apply Q.min_le in Hend. destruct Hend; nra. }
  assert (Erise : forall f, In f fs -> 0 <= fst f -> eval1 f l <= T).
  { intros f Hf Hn. specialize (Hend f Hf). unfold eval1 in *.
    apply Q.min_le in Hend. destruct Hend; nra. }
  split; [exact G1|]. split.
  - apply reach1_lub; [exact Hlu|]. intros f Hf Hn.
    apply Qle_shift_div_r; [lra|].
    specialize (Efall f Hf Hn). unfold eval1 in Efall. nra.
  - intros f Hf. unfold eval1.
    destruct (Qlt_le_dec (fst f) 0) as [N | P].
    + specialize (G2 f Hf N). apply Qdiv_le_elim in G2; [nra | lra].
    + destruct (Qlt_le_dec 0 (fst f)) as [P' | Z].
      * assert (B : reach1 l T fs <= (T - snd f) / fst f).
        { apply reach1_lub.
          - apply Qle_shift_div_l; [exact P'|].
            specialize (Erise f Hf P). unfold eval1 in Erise. nra.
          - intros g Hg Hn. specialize (Hcross g f Hg Hf Hn P').
            unfold cross1 in Hcross.
            apply Qdiv_le_elim in Hcross; [|lra].
            apply Qle_shift_div_r; [lra|].
            assert (E : (T - snd f) / fst f * fst f == T - snd f)
              by (field; lra).
            set (U := (T - snd f) / fst f) in *. nra. }
        apply Qle_div_elim in B; [nra | exact P'].
      * specialize (Erise f Hf P). unfold eval1 in Erise.
        assert (fst f == 0) by lra. nra.
Qed.

(** [min_max1] is reached on the interval. *)
Lemma min_max1_reached (l u : Q) (fs : list line) :
  l <= u ->
  exists y, l <= y /\ y <= u
    /\ forall f, In f fs -> eval1 f y <= min_max1 l u fs.
Proof.
  intros Hlu. exists (reach1 l (min_max1 l u fs) fs).
  apply lines_below; [exact Hlu | |].
  - intros f Hf. apply Qmax_list_ge, in_or_app. left.
    unfold ends1. apply in_map_iff. now exists f.
  - intros f g Hf Hg H1 H2. apply Qmax_list_ge, in_or_app. right.
    apply in_crossings1. now exists f, g.
Qed.

(** ** The least maximum of pieces over a rectangle *)

Lemma eval1_slice (x y : Q) (p : piece) : eval1 (slice x p) y == eval2 p x y.
Proof. unfold eval1, eval2, slice. simpl. ring. Qed.

Lemma in_crossings2 (ps : list piece) (g : line) :
  In g (crossings2 ps) <->
  exists p q, In p ps /\ In q ps /\ snd (fst p) < 0 /\ 0 < snd (fst q)
              /\ g = cross2 p q.
Proof.
  unfold crossings2. rewrite in_flat_map. split.
  - intros (p & Hp & H). apply in_flat_map in H. destruct H as (q & Hq & H).
    destruct (falls_rises (snd (fst p)) (snd (fst q))) eqn:E; [|contradiction].
    destruct H as [<- | []]. unfold falls_rises in E.
    apply andb_true_iff in E. destruct E as [E1 E2].
    apply Qlt_bool_iff in E1, E2. now exists p, q.
  - intros (p & q & Hp & Hq & H1 & H2 & ->). exists p. split; [exact Hp|].
    apply in_flat_map. exists q. split; [exact Hq|].
    unfold falls_rises. apply Qlt_bool_iff in H1, H2. rewrite H1, H2.
    now left.
Qed.

Lemma eval1_cross2 (x : Q) (p q : piece) :
  snd (fst p) < 0 -> 0 < snd (fst q) ->
  eval1 (cross2 p q) x == cross1 (slice x p) (slice x q).
Proof.
  intros Hp Hq. unfold eval1, cross1, cross2, slice. simpl. field. lra.
Qed.

Lemma eval1_ends2 (l u x : Q) (p : piece) :
  eval1 (fst (fst p), snd p + Qmin (snd (fst p) * l) (snd (fst p) * u)) x
  == Qmin (eval1 (slice x p) l) (eval1 (slice x p) u).
Proof.
  unfold eval1, slice. simpl.
  rewrite Q.plus_min_distr_r. ring.
Qed.

Lemma min_max2_lower (lx ux ly uy x y t : Q) (ps : list piece) :
  ps <> [] -> lx <= x -> x <= ux -> ly <= y -> y <= uy ->
  (forall p, In p ps -> eval2 p x y <= t) ->
  min_max2 lx ux ly uy ps <= t.
Proof.
  intros Hne Hx1 Hx2 Hy1 Hy2 H. unfold min_max2.
  apply min_max1_lower with (y := x); auto.
  - destruct ps; [congruence | discriminate].
  - intros g Hg. apply in_app_or in Hg. destruct Hg as [Hg | Hg].
    + unfold ends2 in Hg. apply in_map_iff in Hg. destruct Hg as (p & <- & Hp).
      rewrite eval1_ends2.
      eapply Qle_trans; [apply eval1_between with (y := y); assumption|].
      rewrite eval1_slice. auto.
    + apply in_crossings2 in Hg.
      destruct Hg as (p & q & Hp & Hq & H1 & H2 & ->).
      rewrite eval1_cross2 by assumption.
      apply cross1_le with (y := y); auto; rewrite eval1_slice; auto.
Qed.

Lemma min_max2_reached (lx ux ly uy : Q) (ps : list piece) :
  lx <= ux -> ly <= uy ->
  exists x y, lx <= x /\ x <= ux /\ ly <= y /\ y <= uy
    /\ forall p, In p ps -> eval2 p x y <= min_max2 lx ux ly uy ps.
Proof.
  intros Hx Hy. unfold min_max2.
  set (G := ends2 ly uy ps ++ crossings2 ps).
  destruct (min_max1_reached lx ux G Hx) as (x & X1 & X2 & HG).
  set (T := min_max1 lx ux G) in *.
  destruct (lines_below ly uy T (map (slice x) ps) Hy) as (Y1 & Y2 & HY).
  - intros f Hf. apply in_map_iff in Hf. destruct Hf as (p & <- & Hp).
    rewrite <- eval1_ends2. apply HG, in_or_app. left.
    unfold ends2. apply in_map_iff. now exists p.
  - intros f g Hf Hg H1 H2.
    apply in_map_iff in Hf, Hg.
    destruct Hf as (p & <- & Hp). destruct Hg as (q & <- & Hq).
    rewrite <- eval1_cross2 by assumption. apply HG, in_or_app. right.
    apply in_crossings2. now exists p, q.
  - exists x, (reach1 ly T (map (slice x) ps)).
    repeat split; auto.
    intros p Hp. rewrite <- eval1_slice. apply HY, in_map. exact Hp.
Qed.

(** ** The energy above the hull *)

Section AnalyzerFacts.
Context {lib : Pymatgen}.

Lemma eval2_plane (e : PourbaixEntry) (pH phi : Q) :
  eval2 (plane e) pH phi == free_energy e pH phi.
Proof. unfold eval2, plane, free_energy. simpl. ring. Qed.

Lemma eval2_piece_sub (p q : piece) (x y : Q) :
  eval2 (piece_sub p q) x y == eval2 p x y - eval2 q x y.
Proof. unfold eval2, piece_sub. simpl. ring. Qed.

(** No point of the domain has the entry closer to the hull. *)
Lemma e_above_hull_lower (entries : list PourbaixEntry) (c : PourbaixEntry)
    (pH phi t : Q) :
  entries <> [] -> in_domain pH phi ->
  (forall e, In e entries -> free_energy c pH phi - free_energy e pH phi <= t) ->
  get_e_above_hull entries c <= t.
Proof.
  intros Hne (D1 & D2 & D3 & D4) H. unfold get_e_above_hull.
  apply min_max2_lower with (x := pH) (y := phi); auto.
  - destruct entries; [congruence | discriminate].
  - intros p Hp. apply in_map_iff in Hp. destruct Hp as (e & <- & He).
    rewrite eval2_piece_sub, !eval2_plane. auto.
Qed.

(** Some point of the domain has the entry that close to the hull. *)
Lemma e_above_hull_reached (entries : list PourbaixEntry) (c : PourbaixEntry) :
  exists pH phi, in_domain pH phi
    /\ forall e, In e entries ->
         free_energy c pH phi - free_energy e pH phi
         <= get_e_above_hull entries c.
Proof.
  unfold get_e_above_hull.
  destruct (min_max2_reached pH_min pH_max phi_min phi_max
              (map (fun e => piece_sub (plane c) (plane e)) entries))
    as (x & y & X1 & X2 & Y1 & Y2 & H).
  - unfold pH_min, pH_max. lra.
  - unfold phi_min, phi_max. lra.
  - exists x, y. split; [repeat split; assumption|].
    intros e He. rewrite <- !eval2_plane, <- eval2_piece_sub.
    apply H, in_map_iff. now exists e.
Qed.

(** The value is the minimum over the domain of the free energy of the
    entry minus the hull. *)
Lemma e_above_hull_is_minimum (entries : list PourbaixEntry) (c : PourbaixEntry) :
  entries <> [] ->
  (forall pH phi, in_domain pH phi ->
     get_e_above_hull entries c
     <= free_energy c pH phi - hull_energy entries pH phi)
  /\ exists pH phi, in_domain pH phi
       /\ free_energy c pH phi - hull_energy entries pH phi
          == get_e_above_hull entries c.
Proof.
  intros Hne.
  assert (L : forall pH phi, in_domain pH phi ->
     get_e_above_hull entries c
     <= free_energy c pH phi - hull_energy entries pH phi).
  { intros pH phi D. apply e_above_hull_lower with (pH := pH) (phi := phi); auto.
    intros e He.
    assert (hull_energy entries pH phi <= free_energy e pH phi).
    { apply Qmin_list_le, in_map_iff. now exists e. }
    lra. }
  split; [exact L|].
  destruct (e_above_hull_reached entries c) as (pH & phi & D & H).
  exists pH, phi. split; [exact D|].
  apply Qle_antisym; [|apply L, D].
  destruct (Qmin_list_in (map (fun e => free_energy e pH phi) entries))
    as (v & Hv & E).
  { destruct entries; [congruence | discriminate]. }
  apply in_map_iff in Hv. destruct Hv as (e & <- & He).
  unfold hull_energy. rewrite E. apply H, He.
Qed.
End AnalyzerFacts.

(** ** Outcomes and dictionaries *)

Lemma bind_Ok {A B : Type} (r : result A) (f : A -> result B) (b : B) :
  bind r f = Ok b -> exists a, r = Ok a /\ f a = Ok b.
Proof. destruct r as [a | k]; simpl; [eauto | discriminate]. Qed.

Lemma getitem_Ok {V : Type} (d : dict V) (k : string) (v : V) :
  getitem d k = Ok v <-> dict_get d k = Some v.
Proof.
  unfold getitem. destruct (dict_get d k); split; congruence.
Qed.

Lemma known_getitem {V : Type} (d : dict V) (k : string) :
  known d k = true -> exists v, getitem d k = Ok v.
Proof.
  unfold known, getitem. destruct (dict_get d k); [eauto | discriminate].
Qed.

Lemma dict_get_In {V : Type} (d : dict V) (k : string) (v : V) :
  dict_get d k = Some v -> In (k, v) d.
Proof.
  induction d as [|[k' v'] d IH]; simpl; [discriminate|].
  destruct (String.eqb k' k) eqn:E.
  - apply String.eqb_eq in E. intros [= ->]. left. now subst.
  - intros H. right. auto.
Qed.

Lemma keys_dict_set {V : Type} (d : dict V) (k : string) (v : V) :
  (In k (keys d) -> keys (dict_set d k v) = keys d)
  /\ (~ In k (keys d) -> keys (dict_set d k v) = keys d ++ [k]).
Proof.
  induction d as [|[k' v'] d [IH1 IH2]]; simpl.
  - split; [contradiction | reflexivity].
  - destruct (String.eqb k' k) eqn:E; simpl.
    + apply String.eqb_eq in E. subst. split; [reflexivity|].
      intros H. exfalso. apply H. now left.
    + apply String.eqb_neq in E. split; intros H.
      * destruct H as [H | H]; [contradiction|]. now rewrite IH1.
      * rewrite IH2; [reflexivity|]. intros H'. apply H. now right.
Qed.

Lemma NoDup_dict_set {V : Type} (d : dict V) (k : string) (v : V) :
  NoDup (keys d) -> NoDup (keys (dict_set d k v)).
Proof.
  intros H. destruct (in_dec string_dec k (keys d)) as [I | I].
  - now rewrite (proj1 (keys_dict_set d k v) I).
  - rewrite (proj2 (keys_dict_set d k v) I).
    apply NoDup_app; [exact H | repeat constructor; simpl; tauto |].
    intros x Hx [<- | []]. contradiction.
Qed.

Lemma In_keys_dict_set {V : Type} (d : dict V) (k k0 : string) (v : V) :
  In k0 (keys (dict_set d k v)) -> k0 = k \/ In k0 (keys d).
Proof.
  destruct (in_dec string_dec k (keys d)) as [I | I].
  - rewrite (proj1 (keys_dict_set d k v) I). auto.
  - rewrite (proj2 (keys_dict_set d k v) I). intros H.
    apply in_app_or in H. destruct H as [H | [<- | []]]; auto.
Qed.

Lemma NoDup_dict_update {V : Type} (other d : dict V) :
  NoDup (keys d) -> NoDup (keys (dict_update d other)).
Proof.
  unfold dict_update. revert d.
  induction other as [|[k v] other IH]; simpl; intros d H; [exact H|].
  apply IH, NoDup_dict_set, H.
Qed.

Lemma In_keys_dict_update {V : Type} (other d : dict V) (k0 : string) :
  In k0 (keys (dict_update d other)) -> In k0 (keys d) \/ In k0 (keys other).
Proof.
  unfold dict_update. revert d.
  induction other as [|[k v] other IH]; simpl; intros d H; [auto|].
  apply IH in H. destruct H as [H | H]; [|auto].
  apply In_keys_dict_set in H. destruct H as [-> | H]; auto.
Qed.

(** ** The compound entry *)

Section CompoundFacts.
Context {lib : Pymatgen}.
Variable db : RefData.

Lemma subtract_end_members_shift (elts : list string) (c1 c2 : ComputedEntry)
    (x x' d : Q) :
  ce_composition c1 = ce_composition c2 -> x' == x - d ->
  result_Qeq (subtract_end_members db elts c1 x')
             (y <- subtract_end_members db elts c2 x ;; Ok (y - d)).
Proof.
  intros Hc. revert x x'.
  induction elts as [|elt elts IH]; simpl; intros x x' Hx.
  - exact Hx.
  - destruct (getitem (END_MEMBERS db) elt) as [e | k]; simpl; [|reflexivity].
    apply IH. rewrite Hc, Hx. ring.
Qed.

Lemma subtract_end_members_sum (elts : list string) (cmpd : ComputedEntry)
    (x r : Q) :
  subtract_end_members db elts cmpd x = Ok r ->
  exists refs,
    Forall2 (fun elt e => getitem (END_MEMBERS db) elt = Ok e) elts refs
    /\ r == x - Qsum (map (fun p => snd p * amount (ce_composition cmpd) (fst p))
                          (combine elts refs)).
Proof.
  revert x. induction elts as [|elt elts IH]; simpl; intros x H.
  - injection H as <-. exists []. split; [constructor | simpl; ring].
  - apply bind_Ok in H. destruct H as (e & He & H).
    apply IH in H. destruct H as (refs & F & E).
    exists (e :: refs). split; [now constructor|].
    simpl. rewrite E. ring.
Qed.

Lemma subtract_end_members_covered (elts : list string) (cmpd : ComputedEntry)
    (x : Q) :
  forallb (known (END_MEMBERS db)) elts = true ->
  exists r, subtract_end_members db elts cmpd x = Ok r.
Proof.
  revert x. induction elts as [|elt elts IH]; simpl; intros x H.
  - eauto.
  - apply andb_true_iff in H. destruct H as [H1 H2].
    apply known_getitem in H1. destruct H1 as (e & ->). simpl. auto.
Qed.

Lemma form_energy_shift (self : Pourbaix2D) (m : Q) :
  result_Qeq (form_energy db self m)
    (f0 <- form_energy db self 0 ;;
     Ok (f0 - m / 1000 * num_atoms (_composition self))).
Proof.
  unfold form_energy. apply subtract_end_members_shift; [reflexivity|].
  unfold ce_energy, compound, add_metastability, new_ComputedEntry. simpl.
  field.
Qed.


Lemma make_entries_Ok (self : Pourbaix2D) (m conc : Q)
    (pbx : PourbaixEntry) (ions : list PourbaixEntry) :
  make_entries db self m conc = Ok (pbx, ions) ->
  exists ion_dict fe,
    pick_ions db (chemsys (new_ComputedEntry (_composition self) (_energy self))) []
      = Ok ion_dict
    /\ form_energy db self m = Ok fe
    /\ pbx = reduced_entry (g0_replace (PourbaixEntry_solid (compound self m)) fe)
    /\ ion_loop db
         (filter (fun elt => negb (in_OH elt))
            (chemsys (new_ComputedEntry (_composition self) (_energy self))))
         ion_dict conc [] = Ok ions.
Proof.
  unfold make_entries. intros H.
  apply bind_Ok in H. destruct H as (ion_dict & H1 & H).
  apply bind_Ok in H. destruct H as (fe & H2 & H).
  apply bind_Ok in H. destruct H as (l & H3 & H).
  injection H as <- <-. now exists ion_dict, fe.
Qed.

(** C6: the reference free energy given to the compound's Pourbaix entry
    by [g0_replace] is the energy of the compound entry, metastability
    correction included, minus the sum over the elements of the
    composition of the end-member energy of the element times its
    amount. *)
Theorem g0_is_formation_energy (self : Pourbaix2D) (m conc : Q)
    (pbx : PourbaixEntry) (ions : list PourbaixEntry) :
  make_entries db self m conc = Ok (pbx, ions) ->
  exists (fe : Q) (refs : list Q),
    pbx = reduced_entry (g0_replace (PourbaixEntry_solid (compound self m)) fe)
    /\ g0 (g0_replace (PourbaixEntry_solid (compound self m)) fe) == fe
    /\ Forall2 (fun elt e => getitem (END_MEMBERS db) elt = Ok e)
         (elements (_composition self)) refs
    /\ fe == ce_energy (compound self m)
             - Qsum (map (fun p => snd p * amount (_composition self) (fst p))
                         (combine (elements (_composition self)) refs)).
Proof.
  intros H. apply make_entries_Ok in H.
  destruct H as (ion_dict & fe & _ & Hfe & -> & _).
  unfold form_energy in Hfe. apply subtract_end_members_sum in Hfe.
  destruct Hfe as (refs & F & E).
  exists fe, refs. split; [reflexivity|]. split; [|split; [exact F | exact E]].
  unfold g0, energy, g0_replace, PourbaixEntry_solid. simpl. ring.
Qed.

Lemma make_plot_Ok (self : Pourbaix2D) (m conc s : Q) (files : list string) :
  make_plot db self m conc = Ok (s, files) ->
  exists pbx ions,
    make_entries db self m conc = Ok (pbx, ions)
    /\ s = get_e_above_hull (pbx :: ions) pbx
    /\ files = [plot_file self m].
Proof.
  unfold make_plot. intros H.
  apply bind_Ok in H. destruct H as ([pbx ions] & H1 & H).
  apply bind_Ok in H. destruct H as (u & H2 & H).
  injection H as <- <-. now exists pbx, ions.
Qed.

(** C9: an invocation of [make_plot] that returns has written exactly one
    file: the reduced formula followed by [.pdf] when the metastability is
    zero, and by [_<metastability>meV.pdf] when it is not. *)
Theorem one_plot_file (self : Pourbaix2D) (m conc s : Q) (files : list string) :
  make_plot db self m conc = Ok (s, files) ->
  (m == 0 ->
     files = [(reduced_formula (_composition self) ++ ".pdf")%string])
  /\ (~ m == 0 ->
     files = [(reduced_formula (_composition self) ++ "_"
               ++ format_number m ++ "meV.pdf")%string]).
Proof.
  intros H. apply make_plot_Ok in H. destruct H as (pbx & ions & _ & _ & ->).
  unfold plot_file. split; intros Hm.
  - apply Qeq_bool_iff in Hm. unfold nonzero. now rewrite Hm.
  - apply nonzero_iff in Hm. now rewrite Hm.
Qed.
End CompoundFacts.

(** ** The ion entries *)

Section IonFacts.
Context {lib : Pymatgen}.

Lemma ion_entry_zero (db : RefData) (elt key : string) (exp_energy conc : Q) :
  amount (ion_composition (Ion_from_formula key)) elt == 0 ->
  ion_entry db elt key exp_energy conc = Ok None.
Proof.
  intros H. unfold ion_entry, nonzero.
  apply Qeq_bool_iff in H. now rewrite H.
Qed.

Lemma ion_entry_Some (db : RefData) (elt key : string) (exp_energy conc : Q)
    (e : PourbaixEntry) :
  ion_entry db elt key exp_energy conc = Ok (Some e) ->
  exists c,
    getitem (IonCorrection db) elt = Ok c
    /\ nonzero (amount (ion_composition (Ion_from_formula key)) elt) = true
    /\ e = set_name (set_conc (set_correction
             (PourbaixEntry_ion (mkIonEntry (Ion_from_formula key) exp_energy))
             (c * amount (ion_composition (Ion_from_formula key)) elt))
             conc) key.
Proof.
  unfold ion_entry.
  destruct (nonzero (amount (ion_composition (Ion_from_formula key)) elt));
    [|discriminate].
  destruct (getitem (IonCorrection db) elt) as [c | k]; simpl; [|discriminate].
  intros [= <-]. now exists c.
Qed.

Lemma ion_entry_nonzero (db : RefData) (elt key : string) (exp_energy conc c : Q) :
  nonzero (amount (ion_composition (Ion_from_formula key)) elt) = true ->
  getitem (IonCorrection db) elt = Ok c ->
  ion_entry db elt key exp_energy conc
  = Ok (Some (set_name (set_conc (set_correction
             (PourbaixEntry_ion (mkIonEntry (Ion_from_formula key) exp_energy))
             (c * amount (ion_composition (Ion_from_formula key)) elt))
             conc) key)).
Proof. unfold ion_entry. now intros -> ->. Qed.

(** C8: an ion whose composition holds zero atoms of the element makes no
    entry for that element: the body of the loop appends nothing and looks
    nothing up, and the pass over [ion_dict] for the element runs as if
    the ion were not in the dictionary. *)
Theorem zero_amount_skipped (db : RefData) (elt key : string)
    (exp_energy conc : Q) :
  amount (ion_composition (Ion_from_formula key)) elt == 0 ->
  ion_entry db elt key exp_energy conc = Ok None
  /\ forall (ion_dict : dict Q) (acc : list PourbaixEntry),
       ion_loop_keys db elt ion_dict conc acc
       = ion_loop_keys db elt
           (filter (fun kv => negb (String.eqb (fst kv) key)) ion_dict) conc acc.
Proof.
  intros Hz. split; [now apply ion_entry_zero|].
  induction ion_dict as [|[k v] d IH]; intros acc; simpl; [reflexivity|].
  destruct (String.eqb k key) eqn:E; simpl.
  - apply String.eqb_eq in E. subst k.
    rewrite ion_entry_zero by exact Hz. simpl. apply IH.
  - destruct (ion_entry db elt k v conc) as [[e|] | k']; simpl; auto.
Qed.


Lemma ion_loop_keys_Ok (db : RefData) (elt : string) (conc : Q)
    (ion_dict : dict Q) (acc r : list PourbaixEntry) :
  ion_loop_keys db elt ion_dict conc acc = Ok r ->
  r = acc ++ appended db elt conc ion_dict
  /\ forall kv, In kv ion_dict ->
       exists o, ion_entry db elt (fst kv) (snd kv) conc = Ok o.
Proof.
  revert acc. unfold appended.
  induction ion_dict as [|[k v] d IH]; simpl; intros acc H.
  - injection H as <-. split; [now rewrite app_nil_r | contradiction].
  - apply bind_Ok in H. destruct H as (o & Ho & H). rewrite Ho.
    destruct o as [e|]; apply IH in H; destruct H as [-> H].
    + split; [now rewrite <- app_assoc|].
      intros kv [<- | Hkv]; [eauto | auto].
    + split; [reflexivity|].
      intros kv [<- | Hkv]; [eauto | auto].
Qed.

Lemma ion_loop_Ok (db : RefData) (elts : list string) (conc : Q)
    (ion_dict : dict Q) (acc r : list PourbaixEntry) :
  ion_loop db elts ion_dict conc acc = Ok r ->
  r = acc ++ flat_map (fun elt => appended db elt conc ion_dict) elts
  /\ forall elt kv, In elt elts -> In kv ion_dict ->
       exists o, ion_entry db elt (fst kv) (snd kv) conc = Ok o.
Proof.
  revert acc. induction elts as [|elt elts IH]; simpl; intros acc H.
  - injection H as <-. split; [now rewrite app_nil_r | contradiction].
  - apply bind_Ok in H. destruct H as (l & Hl & H).
    apply ion_loop_keys_Ok in Hl. destruct Hl as [-> Hk].
    apply IH in H. destruct H as [-> He].
    split; [now rewrite <- app_assoc|].
    intros e kv [<- | H1] H2; [auto | eauto].
Qed.

Lemma appended_name (db : RefData) (elt : string) (conc : Q) (ion_dict : dict Q)
    (e : PourbaixEntry) :
  In e (appended db elt conc ion_dict) ->
  In (name e) (keys ion_dict)
  /\ composition e = ion_composition (Ion_from_formula (name e)).
Proof.
  unfold appended. intros H. apply in_flat_map in H.
  destruct H as ([k v] & Hkv & H). simpl in H.
  destruct (ion_entry db elt k v conc) as [[e'|] | k'] eqn:E; try contradiction.
  destruct H as [<- | []]. apply ion_entry_Some in E.
  destruct E as (c & _ & _ & ->). simpl. split; [|reflexivity].
  unfold keys. apply in_map_iff. now exists (k, v).
Qed.

Lemma filter_flat_map {A B : Type} (f : B -> bool) (g : A -> list B)
    (l : list A) :
  filter f (flat_map g l) = flat_map (fun x => filter f (g x)) l.
Proof.
  induction l as [|x l IH]; simpl; [reflexivity|].
  now rewrite filter_app, IH.
Qed.

Lemma appended_other_key (db : RefData) (elt key : string) (conc : Q)
    (ion_dict : dict Q) :
  ~ In key (keys ion_dict) ->
  filter (fun e => String.eqb (name e) key) (appended db elt conc ion_dict) = [].
Proof.
  intros Hk.
  destruct (filter (fun e => String.eqb (name e) key)
              (appended db elt conc ion_dict)) as [|e l] eqn:E; [reflexivity|].
  assert (I : In e (filter (fun e => String.eqb (name e) key)
                      (appended db elt conc ion_dict)))
    by (rewrite E; now left).
  apply filter_In in I. destruct I as [I N].
  apply String.eqb_eq in N. apply appended_name in I. destruct I as [I _].
  rewrite N in I. contradiction.
Qed.

(** The entries named [key] among those appended for one element. *)
Lemma appended_this_key (db : RefData) (elt key : string) (conc exp_energy : Q)
    (ion_dict : dict Q) :
  NoDup (keys ion_dict) -> dict_get ion_dict key = Some exp_energy ->
  filter (fun e => String.eqb (name e) key) (appended db elt conc ion_dict)
  = match ion_entry db elt key exp_energy conc with
    | Ok (Some e) => [e]
    | _ => []
    end.
Proof.
  induction ion_dict as [|[k v] d IH]; simpl; intros ND Hg; [discriminate|].
  inversion ND as [|? ? Hk ND']; subst.
  change (appended db elt conc ((k, v) :: d))
    with ((match ion_entry db elt k v conc with
           | Ok (Some e) => [e]
           | _ => []
           end) ++ appended db elt conc d).
  rewrite filter_app.
  destruct (String.eqb k key) eqn:E.
  - apply String.eqb_eq in E. subst k. injection Hg as ->.
    rewrite appended_other_key by exact Hk. rewrite app_nil_r.
    destruct (ion_entry db elt key exp_energy conc) as [[e|] | k'] eqn:Ee;
      try reflexivity.
    apply ion_entry_Some in Ee. destruct Ee as (c & _ & _ & ->). simpl.
    now rewrite String.eqb_refl.
  - rewrite IH by assumption.
    destruct (ion_entry db elt k v conc) as [[e|] | k'] eqn:Ee;
      try reflexivity.
    apply ion_entry_Some in Ee. destruct Ee as (c & _ & _ & ->). simpl.
    now rewrite E.
Qed.
End IonFacts.

(** ** Picking the ions and building the entry list *)

Section EntryListFacts.
Context {lib : Pymatgen}.
Variable db : RefData.

Lemma pick_ions_NoDup (elts : list string) (acc d : dict Q) :
  NoDup (keys acc) -> pick_ions db elts acc = Ok d -> NoDup (keys d).
Proof.
  revert acc. induction elts as [|elt elts IH]; simpl; intros acc ND H.
  - now injection H as <-.
  - destruct (in_OH elt); simpl in H; [eauto|].
    apply bind_Ok in H. destruct H as (ions & _ & H).
    destruct ions as [|kv ions]; [eauto|].
    eapply IH; [|exact H]. now apply NoDup_dict_update.
Qed.

Lemma pick_ions_keys (elts : list string) (acc d : dict Q) (k : string) :
  pick_ions db elts acc = Ok d -> In k (keys d) ->
  In k (keys acc)
  \/ exists elt ions, In elt elts /\ in_OH elt = false
       /\ dict_get (ExpFormEnergy db) elt = Some ions /\ In k (keys ions).
Proof.
  revert acc. induction elts as [|elt elts IH]; simpl; intros acc H Hk.
  - injection H as <-. now left.
  - destruct (in_OH elt) eqn:OH; simpl in H.
    + destruct (IH _ H Hk) as [I | (e & i & I1 & I2)]; [now left|].
      right. exists e, i. tauto.
    + apply bind_Ok in H. destruct H as (ions & Hi & H).
      apply getitem_Ok in Hi.
      assert (R : forall acc', pick_ions db elts acc' = Ok d ->
                (In k (keys acc') -> In k (keys acc) \/ In k (keys ions)) ->
                In k (keys acc)
                \/ exists elt0 ions0, (elt = elt0 \/ In elt0 elts)
                     /\ in_OH elt0 = false
                     /\ dict_get (ExpFormEnergy db) elt0 = Some ions0
                     /\ In k (keys ions0)).
      { intros acc' H' Hacc.
        destruct (IH _ H' Hk) as [I | (e & i & I1 & I2)].
        - destruct (Hacc I) as [I' | I']; [now left|].
          right. exists elt, ions. tauto.
        - right. exists e, i. tauto. }
      destruct ions as [|kv ions]; [apply (R acc H); tauto|].
      apply (R _ H). apply In_keys_dict_update.
Qed.

Lemma pick_ions_skip (el0 : string) (elts : list string) (acc : dict Q) :
  dict_get (ExpFormEnergy db) el0 = Some [] ->
  pick_ions db elts acc
  = pick_ions db (filter (fun elt => negb (String.eqb elt el0)) elts) acc.
Proof.
  intros H0. revert acc. induction elts as [|elt elts IH]; simpl; intros acc;
    [reflexivity|].
  destruct (String.eqb elt el0) eqn:E; simpl.
  - apply String.eqb_eq in E. subst elt.
    destruct (in_OH el0); simpl; [apply IH|].
    unfold getitem. rewrite H0. simpl. apply IH.
  - destruct (in_OH elt); simpl; [apply IH|].
    destruct (getitem (ExpFormEnergy db) elt) as [[|kv ions] | k]; simpl; auto.
Qed.

Lemma pick_ions_covered (elts : list string) (acc : dict Q) :
  (forall elt, In elt elts -> in_OH elt = false ->
     exists ions, dict_get (ExpFormEnergy db) elt = Some ions) ->
  exists d, pick_ions db elts acc = Ok d.
Proof.
  revert acc. induction elts as [|elt elts IH]; simpl; intros acc H; [eauto|].
  assert (H' : forall acc', exists d, pick_ions db elts acc' = Ok d)
    by (intros; apply IH; intros; apply H; auto).
  destruct (in_OH elt) eqn:OH; simpl; [auto|].
  destruct (H elt (or_introl eq_refl) OH) as (ions & Hi).
  unfold getitem. rewrite Hi. simpl. destruct ions; auto.
Qed.

Lemma filter_chemsys (cmpd : ComputedEntry) :
  filter (fun elt => negb (in_OH elt)) (chemsys cmpd)
  = filter (fun elt => negb (in_OH elt)) (elements (ce_composition cmpd)).
Proof.
  unfold chemsys. rewrite filter_app. simpl.
  induction (elements (ce_composition cmpd)) as [|x l IH]; simpl; [reflexivity|].
  destruct (negb (in_OH x)) eqn:E; simpl; [rewrite E|]; now rewrite ?IH.
Qed.

Lemma ion_loop_keys_covered (elt : string) (conc : Q) (ion_dict : dict Q)
    (acc : list PourbaixEntry) :
  (forall kv, In kv ion_dict ->
     exists o, ion_entry db elt (fst kv) (snd kv) conc = Ok o) ->
  exists r, ion_loop_keys db elt ion_dict conc acc = Ok r.
Proof.
  revert acc. induction ion_dict as [|[k v] d IH]; simpl; intros acc H; [eauto|].
  destruct (H (k, v) (or_introl eq_refl)) as (o & Ho). simpl in Ho.
  rewrite Ho. simpl. destruct o; apply IH; auto.
Qed.

Lemma ion_loop_covered (elts : list string) (conc : Q) (ion_dict : dict Q)
    (acc : list PourbaixEntry) :
  (forall elt kv, In elt elts -> In kv ion_dict ->
     exists o, ion_entry db elt (fst kv) (snd kv) conc = Ok o) ->
  exists r, ion_loop db elts ion_dict conc acc = Ok r.
Proof.
  revert acc. induction elts as [|elt elts IH]; simpl; intros acc H; [eauto|].
  destruct (ion_loop_keys_covered elt conc ion_dict acc) as (l & ->); [auto|].
  simpl. apply IH. auto.
Qed.

Lemma color_patches_covered (entries : list PourbaixEntry) (stable : list nat) :
  (forall e, In e (tl entries) ->
     known (ION_COLORS db) (reduced_formula (composition e)) = true) ->
  color_patches db entries stable = Ok tt.
Proof.
  intros H. induction stable as [|i stable IH]; [reflexivity|].
  cbn [color_patches].
  destruct i as [|j]; [destruct (nth_error entries 0); exact IH|].
  destruct (nth_error entries (S j)) as [entry|] eqn:E; [|exact IH].
  assert (I : In entry (tl entries)).
  { destruct entries as [|e0 l]; [discriminate|]. simpl in *.
    eapply nth_error_In, E. }
  destruct (known_getitem _ _ (H entry I)) as (v & ->). exact IH.
Qed.

Lemma named_entries (elts : list string) (key : string) (exp_energy conc : Q) :
  (forall elt, In elt elts ->
     exists o, ion_entry db elt key exp_energy conc = Ok o) ->
  Forall2 (fun elt e => ion_entry db elt key exp_energy conc = Ok (Some e))
    (filter (fun elt =>
       nonzero (amount (ion_composition (Ion_from_formula key)) elt)) elts)
    (flat_map (fun elt =>
       match ion_entry db elt key exp_energy conc with
       | Ok (Some e) => [e]
       | _ => []
       end) elts).
Proof.
  induction elts as [|elt elts IH]; simpl; intros H; [constructor|].
  assert (IH' := IH (fun e I => H e (or_intror I))).
  destruct (H elt (or_introl eq_refl)) as (o & Ho).
  destruct (nonzero (amount (ion_composition (Ion_from_formula key)) elt)) eqn:E.
  - rewrite Ho. unfold ion_entry in Ho. rewrite E in Ho.
    destruct (getitem (IonCorrection db) elt) eqn:G; simpl in Ho; [|discriminate].
    injection Ho as <-. simpl. constructor; [|exact IH'].
    unfold ion_entry. now rewrite E, G.
  - unfold ion_entry at 2. rewrite E. exact IH'.
Qed.

(** C10: an ion of [ion_dict] that holds nonzero amounts of [k] distinct
    elements of the compound other than O and H gets exactly [k] entries,
    one per such element and in their order, each made by the loop body
    for that element and so carrying that element's correction factor
    times its amount; all of them are in the list given to the diagram. *)
Theorem one_entry_per_element (self : Pourbaix2D) (m ion_concentration : Q)
    (pbx : PourbaixEntry) (ions : list PourbaixEntry) (ion_dict : dict Q)
    (key : string) (exp_energy : Q) :
  NoDup (elements (_composition self)) ->
  make_entries db self m ion_concentration = Ok (pbx, ions) ->
  pick_ions db (chemsys (new_ComputedEntry (_composition self) (_energy self))) []
    = Ok ion_dict ->
  dict_get ion_dict key = Some exp_energy ->
  let elts :=
    filter (fun elt =>
      nonzero (amount (ion_composition (Ion_from_formula key)) elt))
      (filter (fun elt => negb (in_OH elt)) (elements (_composition self))) in
  let named := filter (fun e => String.eqb (name e) key) ions in
  NoDup elts
  /\ Forall2 (fun elt e =>
       ion_entry db elt key exp_energy ion_concentration = Ok (Some e)
       /\ exists c, getitem (IonCorrection db) elt = Ok c
            /\ correction e
               = c * amount (ion_composition (Ion_from_formula key)) elt)
       elts named
  /\ List.length named = List.length elts
  /\ incl named (all_entries pbx ions).
Proof.
  intros ND H Hp Hg elts named.
  apply make_entries_Ok in H.
  destruct H as (d & fe & Hp' & _ & _ & Hl).
  rewrite Hp in Hp'. injection Hp' as <-.
  rewrite filter_chemsys in Hl. simpl in Hl.
  apply ion_loop_Ok in Hl. destruct Hl as [-> Hok]. simpl in named.
  assert (NDd : NoDup (keys ion_dict)).
  { eapply pick_ions_NoDup; [|exact Hp]. constructor. }
  assert (F : Forall2 (fun elt e =>
                ion_entry db elt key exp_energy ion_concentration = Ok (Some e))
                elts named).
  { unfold named. rewrite filter_flat_map.
    erewrite flat_map_ext;
      [|intros elt; apply appended_this_key; eassumption].
    apply named_entries. intros elt He.
    apply (Hok elt (key, exp_energy) He). now apply dict_get_In. }
  split; [apply NoDup_filter, NoDup_filter, ND|].
  split; [|split].
  - eapply Forall2_impl; [|exact F]. intros elt e He. split; [exact He|].
    apply ion_entry_Some in He. destruct He as (c & Hc & _ & ->).
    now exists c.
  - symmetry. eapply Forall2_length, F.
  - intros e He. apply filter_In in He. right. tauto.
Qed.
End EntryListFacts.

(** ** Duplicates *)

Section DuplicateFacts.
Context {lib : Pymatgen}.
Variable db : RefData.

Lemma id_eqb_eq (a b : option string) : id_eqb a b = true <-> a = b.
Proof.
  destruct a as [x|], b as [y|]; simpl; split; try congruence; try reflexivity.
  - intros H. apply String.eqb_eq in H. congruence.
  - intros [= ->]. apply String.eqb_refl.
Qed.

Lemma same_entry_iff (ent entry : PourbaixEntry) :
  same_entry ent entry = true <->
  entry_id ent = entry_id entry
  \/ (Qabs (energy_per_atom entry - energy_per_atom ent) < 1 # 1000000
      /\ reduced_formula (composition entry) = reduced_formula (composition ent)).
Proof.
  unfold same_entry.
  rewrite orb_true_iff, andb_true_iff, id_eqb_eq, Qlt_bool_iff, String.eqb_eq.
  reflexivity.
Qed.

Lemma contains_entry_iff (entry_list : list PourbaixEntry) (entry : PourbaixEntry) :
  contains_entry entry_list entry = true <->
  exists ent, In ent entry_list /\ same_entry ent entry = true.
Proof.
  induction entry_list as [|ent l IH]; simpl.
  - split; [discriminate | intros (e & [] & _)].
  - destruct (same_entry ent entry) eqn:E.
    + split; [|reflexivity]. intros _. exists ent. auto.
    + rewrite IH. split.
      * intros (e & He & H). exists e. auto.
      * intros (e & [<- | He] & H); [congruence|]. now exists e.
Qed.

End DuplicateFacts.

(** ** Elements without ions *)

Section MissingIonFacts.
Context {lib : Pymatgen}.
Variable db : RefData.

Lemma make_plot_covered (self : Pourbaix2D) (m ion_concentration : Q) :
  tables_cover db self = true ->
  exists pbx ions s file,
    make_entries db self m ion_concentration = Ok (pbx, ions)
    /\ make_plot db self m ion_concentration = Ok (s, [file]).
Proof.
  unfold tables_cover. intros H. apply andb_true_iff in H.
  destruct H as [Hend Hions]. rewrite forallb_forall in Hions.
  set (elts := filter (fun elt => negb (in_OH elt)) (elements (_composition self)))
    in *.
  set (cmpd := new_ComputedEntry (_composition self) (_energy self)).
  destruct (pick_ions_covered db (chemsys cmpd) []) as (d & Hd).
  { intros elt He OH.
    assert (I : In elt elts).
    { unfold chemsys in He. apply in_app_or in He.
      destruct He as [[<- | [<- | []]] | He]; try discriminate. exact He. }
    specialize (Hions elt I).
    destruct (dict_get (ExpFormEnergy db) elt); [eauto | discriminate]. }
  destruct (subtract_end_members_covered db (keys (_composition self))
              (compound self m) (ce_energy (compound self m)) Hend) as (fe & Hfe).
  assert (Cov : forall key, In key (keys d) -> ion_covered db elts key = true).
  { intros key Hk.
    destruct (pick_ions_keys db _ _ _ _ Hd Hk) as [[] | (elt & ions & I & OH & G & K)].
    assert (I' : In elt elts).
    { unfold chemsys in I. apply in_app_or in I.
      destruct I as [[<- | [<- | []]] | I]; try discriminate. exact I. }
    specialize (Hions elt I'). rewrite G in Hions.
    rewrite forallb_forall in Hions. auto. }
  destruct (ion_loop_covered db elts ion_concentration d []) as (ions & Hl).
  { intros elt [k v] He Hkv. simpl.
    assert (Hk : In k (keys d)) by (apply in_map_iff; now exists (k, v)).
    specialize (Cov k Hk). unfold ion_covered in Cov.
    apply andb_true_iff in Cov. destruct Cov as [_ Cov].
    rewrite forallb_forall in Cov. specialize (Cov elt He).
    unfold ion_entry.
    destruct (nonzero (amount (ion_composition (Ion_from_formula k)) elt));
      [|eauto].
    simpl in Cov. apply known_getitem in Cov. destruct Cov as (c & ->).
    simpl. eauto. }
  assert (E : make_entries db self m ion_concentration
              = Ok (reduced_entry
                      (g0_replace (PourbaixEntry_solid (compound self m)) fe),
                    ions)).
  { unfold make_entries, form_energy. fold cmpd. rewrite Hd. cbn [bind].
    rewrite Hfe. cbn [bind]. rewrite filter_chemsys.
    change (ce_composition cmpd) with (_composition self). fold elts.
    rewrite Hl. reflexivity. }
  do 4 eexists. split; [exact E|].
  unfold make_plot. rewrite E. simpl.
  rewrite color_patches_covered; [reflexivity|].
  simpl. intros e He.
  apply ion_loop_Ok in Hl. destruct Hl as [-> _]. simpl in He.
  apply in_flat_map in He. destruct He as (elt & _ & He).
  apply appended_name in He. destruct He as [Hk ->].
  specialize (Cov _ Hk). unfold ion_covered in Cov.
  apply andb_true_iff in Cov. tauto.
Qed.

End MissingIonFacts.

(** ** The instability score *)

Section ScoreFacts.
Context {lib : Pymatgen}.
Variable db : RefData.

(** C7: the score [make_plot] returns is never negative, and it is 0
    exactly when, at some point of the domain, the free energy of the
    compound entry is at or below that of every entry of the diagram. *)
Theorem zero_instability_iff_stable_somewhere (self : Pourbaix2D)
    (m ion_concentration s : Q) (files : list string) :
  make_plot db self m ion_concentration = Ok (s, files) ->
  exists pbx ions,
    make_entries db self m ion_concentration = Ok (pbx, ions)
    /\ 0 <= s
    /\ (s == 0 <->
        exists pH phi, in_domain pH phi
          /\ on_hull_at (all_entries pbx ions) pbx pH phi).
Proof.
  intros H. apply make_plot_Ok in H. destruct H as (pbx & ions & H & -> & _).
  exists pbx, ions. split; [exact H|].
  change (all_entries pbx ions) with (pbx :: ions).
  destruct (e_above_hull_reached (pbx :: ions) pbx) as (pH & phi & D & R).
  assert (P : 0 <= get_e_above_hull (pbx :: ions) pbx).
  { specialize (R pbx (or_introl eq_refl)). lra. }
  split; [exact P|]. split.
  - intros Z. exists pH, phi. split; [exact D|].
    intros e He. specialize (R e He). lra.
  - intros (pH' & phi' & D' & S). apply Qle_antisym; [|exact P].
    apply e_above_hull_lower with (pH := pH') (phi := phi');
      [discriminate | exact D' |].
    intros e He. specialize (S e He). lra.
Qed.

End ScoreFacts.

(** ** The code at work on the sample world *)

Module Run.
Import Sample.

(** A compound of low energy is stable somewhere: score 0, one file. *)
Example MoS2_stable :
  exists s, make_plot db (MoS2 (-21)) 0 c6 = Ok (s, ["MoS2.pdf"%string])
            /\ s == 0.
Proof. eexists. split; vm_compute; reflexivity. Qed.

(** An element with no key at all in the ion table stops [make_plot]. *)
Example TiO2_unknown :
  make_plot db (mkPourbaix2D [("Ti"%string, 1); ("O"%string, 2)] 1) 0 c6
  = KeyError "Ti".
Proof. vm_compute. reflexivity. Qed.


(** A run that is claimed to have raised is evaluated and did not. *)
Ltac ran H := vm_compute in H; discriminate H.


(** The sample normalisation leaves an entry as it is. *)
Lemma keeps_order_sample : keeps_order (@reduced_entry lib).
Proof.
  intros e x y pH phi H. unfold free_energy, g0, energy. simpl. lra.
Defined.



(** The entry of MoO4[2-] for Mo: one Mo atom among five, correction
    0.3 * 1. *)
Example MoO4_correction :
  exists pbx e rest,
    make_entries db (MoS2 1) 0 c6 = Ok (pbx, e :: rest)
    /\ name e = "MoO4[2-]"%string
    /\ getitem (IonCorrection db) "Mo" = Ok (3 # 10)
    /\ amount (composition e) "Mo" == 1
    /\ num_atoms (composition e) == 5
    /\ correction e == 3 # 10.
Proof.
  do 3 eexists. split; [vm_compute; reflexivity|].
  repeat split; vm_compute; reflexivity.
Qed.



(** C6, witness. *)
Lemma g0_is_formation_energy_witness :
  exists pbx ions,
    make_entries db (MoS2 1) 50 c6 = Ok (pbx, ions)
    /\ exists fe refs,
         pbx = reduced_entry
                 (g0_replace (PourbaixEntry_solid (compound (MoS2 1) 50)) fe)
         /\ refs = [- (109 # 10); - (41 # 10)]
         /\ fe == (1 - 50 / 1000 * 3) - (- (109 # 10) * 1 + - (41 # 10) * 2).
Proof.
  pose proof (g0_is_formation_energy db (MoS2 1) 50 c6) as T.
  destruct (make_entries db (MoS2 1) 50 c6) as [[pbx ions] | k] eqn:H; [|ran H].
  exists pbx, ions. split; [reflexivity|].
  destruct (T pbx ions eq_refl) as (fe & refs & P & _ & F & E).
  exists fe, refs. split; [exact P|].
  assert (R : refs = [- (109 # 10); - (41 # 10)]).
  { simpl in F. inversion F as [|? r1 ? l1 G1 F1]; subst.
    inversion F1 as [|? r2 ? l2 G2 F2]; subst. inversion F2; subst.
    vm_compute in G1, G2. injection G1 as <-. injection G2 as <-.
    reflexivity. }
  split; [exact R|]. rewrite E, R. vm_compute. reflexivity.
Defined.

(** C7, witness. *)
Lemma zero_instability_iff_stable_somewhere_witness :
  exists s files,
    make_plot db (MoS2 (-21)) 0 c6 = Ok (s, files)
    /\ exists pbx ions,
         make_entries db (MoS2 (-21)) 0 c6 = Ok (pbx, ions)
         /\ 0 <= s
         /\ (s == 0 <->
             exists pH phi, in_domain pH phi
               /\ on_hull_at (all_entries pbx ions) pbx pH phi).
Proof.
  pose proof (zero_instability_iff_stable_somewhere db (MoS2 (-21)) 0 c6) as T.
  destruct (make_plot db (MoS2 (-21)) 0 c6) as [[s files] | k] eqn:H; [|ran H].
  exists s, files. split; [reflexivity|]. exact (T s files eq_refl).
Defined.

(** C8, witness. *)
Lemma zero_amount_skipped_witness :
  amount (ion_composition (Ion_from_formula "SO4[2-]")) "Mo" == 0
  /\ ion_entry db "Mo" "SO4[2-]" (- (77 # 10)) c6 = Ok None.
Proof.
  assert (A : amount (ion_composition (Ion_from_formula "SO4[2-]")) "Mo" == 0)
    by reflexivity.
  split; [exact A|].
  exact (proj1 (zero_amount_skipped db "Mo" "SO4[2-]" (- (77 # 10)) c6 A)).
Defined.

(** C9, witness. *)
Lemma one_plot_file_witness :
  exists s files,
    make_plot db (MoS2 1) 50 c6 = Ok (s, files)
    /\ ~ 50 == 0
    /\ files = ["MoS2_50.0meV.pdf"%string].
Proof.
  pose proof (one_plot_file db (MoS2 1) 50 c6) as T.
  destruct (make_plot db (MoS2 1) 50 c6) as [[s files] | k] eqn:H; [|ran H].
  assert (N : ~ 50 == 0) by (intros E; discriminate E).
  exists s, files. split; [reflexivity|]. split; [exact N|].
  exact (proj2 (T s files eq_refl) N).
Defined.

(** C10, witness. *)
Lemma one_entry_per_element_witness :
  NoDup (elements (_composition (MoS2 1)))
  /\ exists pbx ions ion_dict,
       make_entries db_thio (MoS2 1) 0 c6 = Ok (pbx, ions)
       /\ pick_ions db_thio
            (chemsys (new_ComputedEntry (_composition (MoS2 1)) (_energy (MoS2 1))))
            [] = Ok ion_dict
       /\ dict_get ion_dict "MoS4[2-]" = Some (- (5 # 1))
       /\ List.length (filter (fun e => String.eqb (name e) "MoS4[2-]") ions)
          = 2%nat.
Proof.
  assert (ND : NoDup (elements (_composition (MoS2 1)))).
  { repeat constructor; simpl; intuition discriminate. }
  split; [exact ND|].
  pose proof (one_entry_per_element db_thio (MoS2 1) 0 c6) as T.
  destruct (make_entries db_thio (MoS2 1) 0 c6) as [[pbx ions] | k] eqn:H;
    [|ran H].
  assert (P : pick_ions db_thio
                (chemsys (new_ComputedEntry (_composition (MoS2 1))
                            (_energy (MoS2 1)))) []
              = Ok [("MoS4[2-]"%string, - (5 # 1))])
    by (vm_compute; reflexivity).
  assert (G : dict_get [("MoS4[2-]"%string, - (5 # 1))] "MoS4[2-]"
              = Some (- (5 # 1))) by reflexivity.
  exists pbx, ions, [("MoS4[2-]"%string, - (5 # 1))].
  split; [reflexivity|]. split; [exact P|]. split; [exact G|].
  destruct (T pbx ions _ "MoS4[2-]"%string (- (5 # 1)) ND eq_refl P G)
    as (_ & _ & L & _).
  rewrite L. reflexivity.
Defined.
End Run.

(** * Further properties of [analysis.py] *)

Section ContainsFacts.
Context {lib : Pymatgen}.

Lemma id_eqb_sym (a b : option string) : id_eqb a b = id_eqb b a.
Proof.
  destruct a as [x|], b as [y|]; simpl; try reflexivity. apply String.eqb_sym.
Qed.

Lemma same_entry_refl (e : PourbaixEntry) : same_entry e e = true.
Proof.
  unfold same_entry. destruct (entry_id e) as [x|]; simpl.
  - now rewrite String.eqb_refl.
  - reflexivity.
Qed.

(** The test of the loop body does not depend on which of the two entries
    is the listed one. *)
Lemma same_entry_sym (a b : PourbaixEntry) : same_entry a b = same_entry b a.
Proof.
  unfold same_entry. rewrite id_eqb_sym. f_equal. f_equal.
  - unfold Qlt_bool. f_equal.
    assert (E : Qabs (energy_per_atom b - energy_per_atom a)
                == Qabs (energy_per_atom a - energy_per_atom b)).
    { rewrite <- Qabs_opp. apply Qabs_wd. ring. }
    now rewrite E.
  - apply String.eqb_sym.
Qed.

(** X1: an entry that is in the list is reported as contained, whatever its
    identifier, energy and formula. *)
Theorem contains_entry_member (entry_list : list PourbaixEntry)
    (entry : PourbaixEntry) :
  In entry entry_list -> contains_entry entry_list entry = true.
Proof.
  induction entry_list as [|ent l IH]; simpl; [contradiction|].
  intros [-> | H].
  - now rewrite same_entry_refl.
  - destruct (same_entry ent entry); auto.
Qed.

(** X2: being a duplicate is symmetric: [contains_entry] gives the same
    answer for a one-entry list and an entry when the two are swapped. *)
Theorem contains_entry_swap (a b : PourbaixEntry) :
  contains_entry [a] b = contains_entry [b] a.
Proof. simpl. now rewrite same_entry_sym. Qed.

(** X3: a list made of two parts contains an entry exactly when one of the
    parts does; the empty list contains nothing. *)
Theorem contains_entry_app (l1 l2 : list PourbaixEntry) (entry : PourbaixEntry) :
  contains_entry [] entry = false
  /\ contains_entry (l1 ++ l2) entry
     = contains_entry l1 entry || contains_entry l2 entry.
Proof.
  split; [reflexivity|].
  induction l1 as [|ent l IH]; simpl; [reflexivity|].
  destruct (same_entry ent entry); [reflexivity | exact IH].
Qed.
End ContainsFacts.

Section MakePlotErrors.
Context {lib : Pymatgen}.
Variable db : RefData.

Lemma in_chemsys (cmpd : ComputedEntry) (elt : string) :
  in_OH elt = false ->
  In elt (chemsys cmpd) <-> In elt (elements (ce_composition cmpd)).
Proof.
  intros OH. unfold chemsys. rewrite in_app_iff, filter_In. rewrite OH. simpl.
  split.
  - intros [[<- | [<- | []]] | [H _]]; try discriminate. exact H.
  - intros H. right. auto.
Qed.

Lemma pick_ions_missing (elts : list string) (acc : dict Q) (elt : string) :
  In elt elts -> in_OH elt = false -> dict_get (ExpFormEnergy db) elt = None ->
  exists k, pick_ions db elts acc = KeyError k
    /\ In k elts /\ in_OH k = false /\ dict_get (ExpFormEnergy db) k = None.
Proof.
  revert acc. induction elts as [|h elts IH]; simpl; intros acc I OH N;
    [contradiction|].
  destruct (in_OH h) eqn:Oh; simpl.
  - destruct I as [-> | I]; [congruence|].
    destruct (IH acc I OH N) as (k & E & Ik & Ok' & Nk).
    exists k. auto.
  - unfold getitem. destruct (dict_get (ExpFormEnergy db) h) as [ions|] eqn:G;
      simpl.
    + destruct I as [-> | I]; [congruence|].
      assert (R : forall acc', exists k, pick_ions db elts acc' = KeyError k
                /\ (h = k \/ In k elts) /\ in_OH k = false
                /\ dict_get (ExpFormEnergy db) k = None).
      { intros acc'. destruct (IH acc' I OH N) as (k & E & Ik & Ok' & Nk).
        exists k. auto. }
      destruct ions; apply R.
    + exists h. auto.
Qed.

(** X4: when an element of the compound other than O and H has no key in
    the ion table, [make_plot] raises [KeyError] for such an element,
    whatever the energy, the metastability and the concentration; nothing
    is plotted. *)
Theorem missing_ion_record_raises (self : Pourbaix2D) (m ion_concentration : Q)
    (elt : string) :
  In elt (elements (_composition self)) -> in_OH elt = false ->
  dict_get (ExpFormEnergy db) elt = None ->
  exists k,
    make_plot db self m ion_concentration = KeyError k
    /\ In k (elements (_composition self)) /\ in_OH k = false
    /\ dict_get (ExpFormEnergy db) k = None.
Proof.
  intros I OH N.
  set (cmpd := new_ComputedEntry (_composition self) (_energy self)).
  destruct (pick_ions_missing (chemsys cmpd) [] elt) as (k & E & Ik & Ok' & Nk);
    [now apply in_chemsys | assumption | assumption |].
  exists k. split.
  - unfold make_plot, make_entries. fold cmpd. now rewrite E.
  - split; [|auto]. now apply (in_chemsys cmpd k Ok').
Qed.

Lemma subtract_end_members_missing (elts : list string) (cmpd : ComputedEntry)
    (x : Q) (elt : string) :
  In elt elts -> dict_get (END_MEMBERS db) elt = None ->
  exists k, subtract_end_members db elts cmpd x = KeyError k
    /\ In k elts /\ dict_get (END_MEMBERS db) k = None.
Proof.
  revert x. induction elts as [|h elts IH]; simpl; intros x I N; [contradiction|].
  unfold getitem. destruct (dict_get (END_MEMBERS db) h) as [e|] eqn:G; simpl.
  - destruct I as [-> | I]; [congruence|].
    destruct (IH (x - e * amount (ce_composition cmpd) h) I N) as (k & E & Ik & Nk).
    exists k. auto.
  - exists h. auto.
Qed.

(** X5: when the ion table has a record for every element other than O
    and H but some element of the compound, O and H included, has no end
    member energy, [make_plot] raises [KeyError] for such an element. *)
Theorem missing_end_member_raises (self : Pourbaix2D) (m ion_concentration : Q)
    (elt : string) :
  (forall e, In e (elements (_composition self)) -> in_OH e = false ->
     exists ions, dict_get (ExpFormEnergy db) e = Some ions) ->
  In elt (elements (_composition self)) ->
  dict_get (END_MEMBERS db) elt = None ->
  exists k,
    make_plot db self m ion_concentration = KeyError k
    /\ In k (elements (_composition self))
    /\ dict_get (END_MEMBERS db) k = None.
Proof.
  intros Hrec I N.
  set (cmpd := new_ComputedEntry (_composition self) (_energy self)).
  destruct (pick_ions_covered db (chemsys cmpd) []) as (d & Hd).
  { intros e He OH. apply Hrec; [|exact OH]. now apply (in_chemsys cmpd e OH). }
  destruct (subtract_end_members_missing (keys (_composition self))
              (compound self m) (ce_energy (compound self m)) elt I N)
    as (k & E & Ik & Nk).
  exists k. split; [|auto].
  unfold make_plot, make_entries, form_energy. fold cmpd. rewrite Hd. cbn [bind].
  now rewrite E.
Qed.

Lemma color_patches_missing (entries : list PourbaixEntry) (stable : list nat)
    (j : nat) (e : PourbaixEntry) :
  In (S j) stable -> nth_error entries (S j) = Some e ->
  dict_get (ION_COLORS db) (reduced_formula (composition e)) = None ->
  exists k, color_patches db entries stable = KeyError k
    /\ dict_get (ION_COLORS db) k = None.
Proof.
  intros I Hn N. induction stable as [|i stable IH]; [contradiction|].
  cbn [color_patches].
  destruct I as [-> | I].
  - rewrite Hn. unfold getitem. rewrite N. simpl. eauto.
  - specialize (IH I). destruct i as [|i']; [destruct (nth_error entries 0); exact IH|].
    destruct (nth_error entries (S i')) as [entry|]; [|exact IH].
    unfold getitem.
    destruct (dict_get (ION_COLORS db) (reduced_formula (composition entry)))
      eqn:G; simpl; [exact IH | eauto].
Qed.

(** X6: when the entries are built and the plot gives a region to an ion
    entry whose reduced formula has no colour, [make_plot] raises
    [KeyError] for a formula without colour and saves no file. *)
Theorem missing_colour_raises (self : Pourbaix2D) (m ion_concentration : Q)
    (pbx : PourbaixEntry) (ions : list PourbaixEntry) (j : nat)
    (e : PourbaixEntry) :
  make_entries db self m ion_concentration = Ok (pbx, ions) ->
  nth_error ions j = Some e ->
  stable_in_plot (all_entries pbx ions) (S j) = true ->
  dict_get (ION_COLORS db) (reduced_formula (composition e)) = None ->
  exists k,
    make_plot db self m ion_concentration = KeyError k
    /\ dict_get (ION_COLORS db) k = None.
Proof.
  intros E Hn St N.
  destruct (color_patches_missing (all_entries pbx ions)
              (stable_entries (all_entries pbx ions)) j e)
    as (k & Ek & Nk); [| exact Hn | exact N |].
  - unfold stable_entries. apply filter_In. split; [|exact St].
    apply in_seq. simpl. split; [lia|].
    assert (j < List.length ions)%nat by (apply nth_error_Some; congruence).
    lia.
  - exists k. split; [|exact Nk].
    unfold make_plot. rewrite E. cbn [bind fst snd]. now rewrite Ek.
Qed.
End MakePlotErrors.

Section IonEntryFacts.
Context {lib : Pymatgen}.
Variable db : RefData.

Lemma subtract_end_members_any (elts : list string) (c1 c2 : ComputedEntry)
    (x1 x2 r : Q) :
  ce_composition c1 = ce_composition c2 ->
  subtract_end_members db elts c2 x2 = Ok r ->
  exists r', subtract_end_members db elts c1 x1 = Ok r'.
Proof.
  intros Hc H.
  pose proof (subtract_end_members_shift db elts c1 c2 x2 x1 (x2 - x1) Hc) as S.
  rewrite H in S. simpl in S.
  destruct (subtract_end_members db elts c1 x1) as [r'|k]; [eauto|].
  exfalso. apply S. ring.
Qed.

(** X7: the ion entries depend on the composition, the tables and the
    concentration only: with another energy and another metastability the
    entries are built as well and the list of ion entries is the same. *)
Theorem ion_entries_ignore_energy (self self' : Pourbaix2D)
    (m m' ion_concentration : Q) (pbx : PourbaixEntry)
    (ions : list PourbaixEntry) :
  _composition self' = _composition self ->
  make_entries db self m ion_concentration = Ok (pbx, ions) ->
  exists pbx', make_entries db self' m' ion_concentration = Ok (pbx', ions).
Proof.
  intros Hc H. apply make_entries_Ok in H.
  destruct H as (d & fe & Hp & Hf & _ & Hl).
  unfold form_energy in Hf.
  destruct (subtract_end_members_any (keys (_composition self'))
              (compound self' m') (compound self m)
              (ce_energy (compound self' m')) (ce_energy (compound self m)) fe)
    as (fe' & Hf').
  { simpl. exact Hc. }
  { rewrite Hc. exact Hf. }
  eexists. unfold make_entries, form_energy.
  change (chemsys (new_ComputedEntry (_composition self') (_energy self')))
    with (chemsys (new_ComputedEntry (_composition self') (_energy self))).
  rewrite Hc. rewrite Hp. cbn [bind]. rewrite Hc in Hf'. rewrite Hf'. cbn [bind].
  rewrite Hl. reflexivity.
Qed.

Lemma in_appended (elt : string) (conc : Q) (ion_dict : dict Q)
    (e : PourbaixEntry) :
  In e (appended db elt conc ion_dict) ->
  exists key exp_energy,
    In (key, exp_energy) ion_dict
    /\ ion_entry db elt key exp_energy conc = Ok (Some e).
Proof.
  unfold appended. intros H. apply in_flat_map in H.
  destruct H as ([k v] & Hkv & H). simpl in H.
  destruct (ion_entry db elt k v conc) as [[e'|] | k'] eqn:E; try contradiction.
  destruct H as [<- | []]. now exists k, v.
Qed.

(** X8: every ion entry [make_plot] builds is an ion-phase entry named by
    a formula of [ion_dict], with the composition and charge parsed from
    that formula, the energy recorded for it, the concentration given to
    [make_plot], and the correction of an element of the compound (other
    than O and H) that the ion contains, times its amount. *)
Theorem ion_entries_invariant (self : Pourbaix2D) (m ion_concentration : Q)
    (pbx : PourbaixEntry) (ions : list PourbaixEntry) (e : PourbaixEntry) :
  make_entries db self m ion_concentration = Ok (pbx, ions) ->
  In e ions ->
  exists ion_dict elt exp_energy c,
    pick_ions db (chemsys (new_ComputedEntry (_composition self) (_energy self))) []
      = Ok ion_dict
    /\ In (name e, exp_energy) ion_dict
    /\ In elt (elements (_composition self)) /\ in_OH elt = false
    /\ ~ amount (composition e) elt == 0
    /\ getitem (IonCorrection db) elt = Ok c
    /\ phase_type e = IonPhase
    /\ composition e = ion_composition (Ion_from_formula (name e))
    /\ charge e = ion_charge (Ion_from_formula (name e))
    /\ uncorrected_energy e = exp_energy
    /\ correction e = c * amount (composition e) elt
    /\ conc e = ion_concentration.
Proof.
  intros H I. apply make_entries_Ok in H.
  destruct H as (d & fe & Hp & _ & _ & Hl).
  rewrite filter_chemsys in Hl. apply ion_loop_Ok in Hl.
  destruct Hl as [-> _]. simpl in I.
  apply in_flat_map in I. destruct I as (elt & He & I).
  apply filter_In in He. destruct He as [He OH].
  apply negb_true_iff in OH.
  apply in_appended in I. destruct I as (key & x & Hk & E).
  apply ion_entry_Some in E. destruct E as (c & Hc & Nz & ->).
  apply nonzero_iff in Nz. simpl.
  exists d, elt, x, c. repeat split; auto.
Qed.

(** X9: an ion of [ion_dict] has an entry in the list exactly when it
    holds a nonzero amount of some element of the compound other than O
    and H. *)
Theorem ion_has_entry_iff (self : Pourbaix2D) (m ion_concentration : Q)
    (pbx : PourbaixEntry) (ions : list PourbaixEntry) (ion_dict : dict Q)
    (key : string) :
  make_entries db self m ion_concentration = Ok (pbx, ions) ->
  pick_ions db (chemsys (new_ComputedEntry (_composition self) (_energy self))) []
    = Ok ion_dict ->
  In key (keys ion_dict) ->
  (exists e, In e ions /\ name e = key) <->
  (exists elt, In elt (elements (_composition self)) /\ in_OH elt = false
     /\ ~ amount (ion_composition (Ion_from_formula key)) elt == 0).
Proof.
  intros H Hp Hk. apply make_entries_Ok in H.
  destruct H as (d & fe & Hp' & _ & _ & Hl).
  rewrite Hp in Hp'. injection Hp' as <-.
  rewrite filter_chemsys in Hl. apply ion_loop_Ok in Hl.
  destruct Hl as [-> Hok]. simpl. split.
  - intros (e & I & <-). apply in_flat_map in I. destruct I as (elt & He & I).
    apply filter_In in He. destruct He as [He OH]. apply negb_true_iff in OH.
    apply in_appended in I. destruct I as (k & x & _ & E).
    apply ion_entry_Some in E. destruct E as (c & _ & Nz & ->).
    apply nonzero_iff in Nz. simpl. exists elt. auto.
  - intros (elt & He & OH & Nz).
    apply in_map_iff in Hk. destruct Hk as ([k x] & <- & Hkx). simpl in *.
    assert (Ie : In elt (filter (fun elt => negb (in_OH elt))
                           (elements (_composition self)))).
    { apply filter_In. split; [exact He | now rewrite OH]. }
    destruct (Hok elt (k, x) Ie Hkx) as (o & Ho). simpl in Ho.
    apply nonzero_iff in Nz.
    destruct o as [e|].
    + exists e. split.
      * apply in_flat_map. exists elt. split; [exact Ie|].
        unfold appended. apply in_flat_map. exists (k, x). split; [exact Hkx|].
        simpl. rewrite Ho. now left.
      * apply ion_entry_Some in Ho. destruct Ho as (c & _ & _ & ->). reflexivity.
    + unfold ion_entry in Ho. rewrite Nz in Ho.
      destruct (getitem (IonCorrection db) elt); discriminate.
Qed.

Lemma pick_ions_empty (elts : list string) (acc : dict Q) :
  (forall elt, In elt elts -> in_OH elt = false ->
     dict_get (ExpFormEnergy db) elt = Some []) ->
  pick_ions db elts acc = Ok acc.
Proof.
  induction elts as [|h elts IH]; simpl; intros H; [reflexivity|].
  destruct (in_OH h) eqn:OH; simpl; [apply IH; auto|].
  unfold getitem. rewrite (H h (or_introl eq_refl) OH). simpl. apply IH. auto.
Qed.

Lemma ion_loop_no_ions (elts : list string) (conc : Q)
    (acc : list PourbaixEntry) :
  ion_loop db elts [] conc acc = Ok acc.
Proof. induction elts as [|h elts IH]; simpl; auto. Qed.

(** X10: when no element of the compound other than O and H has ions on
    record (in particular for a compound of O and H only) and the end
    members are tabulated, the entries are built without any ion
    correction, and the list given to the diagram is the compound's entry
    alone. *)
Theorem no_ions_only_compound (self : Pourbaix2D) (m ion_concentration : Q) :
  (forall elt, In elt (elements (_composition self)) -> in_OH elt = false ->
     dict_get (ExpFormEnergy db) elt = Some []) ->
  forallb (known (END_MEMBERS db)) (elements (_composition self)) = true ->
  exists pbx,
    make_entries db self m ion_concentration = Ok (pbx, [])
    /\ all_entries pbx [] = [pbx].
Proof.
  intros H E.
  set (cmpd := new_ComputedEntry (_composition self) (_energy self)).
  assert (P : pick_ions db (chemsys cmpd) [] = Ok []).
  { apply pick_ions_empty. intros elt I OH. apply H; [|exact OH].
    now apply (in_chemsys cmpd elt OH). }
  destruct (subtract_end_members_covered db (keys (_composition self))
              (compound self m) (ce_energy (compound self m)) E) as (fe & Hfe).
  eexists. split; [|reflexivity].
  unfold make_entries, form_energy. fold cmpd. rewrite P. cbn [bind].
  rewrite Hfe. cbn [bind]. rewrite ion_loop_no_ions. reflexivity.
Qed.
End IonEntryFacts.

Section MergeFacts.
Context {lib : Pymatgen}.
Variable db : RefData.

Lemma dict_get_dict_set {V : Type} (d : dict V) (k k' : string) (v : V) :
  dict_get (dict_set d k v) k'
  = if String.eqb k k' then Some v else dict_get d k'.
Proof.
  induction d as [|[k0 v0] d IH]; simpl.
  - reflexivity.
  - destruct (String.eqb k0 k) eqn:E; simpl.
    + apply String.eqb_eq in E. subst k0.
      destruct (String.eqb k k'); reflexivity.
    + destruct (String.eqb k0 k') eqn:E'; [|exact IH].
      apply String.eqb_eq in E'. subst k0.
      rewrite String.eqb_sym in E. now rewrite E.
Qed.

Lemma dict_get_not_key {V : Type} (d : dict V) (k : string) :
  dict_get d k = None <-> ~ In k (keys d).
Proof.
  induction d as [|[k0 v0] d IH]; simpl; [tauto|].
  destruct (String.eqb k0 k) eqn:E.
  - apply String.eqb_eq in E. subst. split; [discriminate | tauto].
  - apply String.eqb_neq in E. rewrite IH. tauto.
Qed.

(** [d.update(other)] followed by [d[k]]: the value of [other] when it
    has the key, the old value otherwise. *)
Lemma dict_get_dict_update {V : Type} (other d : dict V) (k : string) :
  NoDup (keys other) ->
  dict_get (dict_update d other) k
  = match dict_get other k with
    | Some v => Some v
    | None => dict_get d k
    end.
Proof.
  unfold dict_update. revert d.
  induction other as [|[k0 v0] o IH]; simpl; intros d ND; [reflexivity|].
  inversion ND as [|? ? Hk ND']; subst.
  rewrite IH by exact ND'. rewrite dict_get_dict_set.
  destruct (String.eqb k0 k) eqn:E.
  - apply String.eqb_eq in E. subst k0.
    apply dict_get_not_key in Hk. now rewrite Hk.
  - reflexivity.
Qed.

Lemma dict_get_dict_update_other {V : Type} (other d : dict V) (k : string) :
  dict_get other k = None ->
  dict_get (dict_update d other) k = dict_get d k.
Proof.
  unfold dict_update. revert d.
  induction other as [|[k0 v0] o IH]; simpl; intros d H; [reflexivity|].
  destruct (String.eqb k0 k) eqn:E; [discriminate|].
  rewrite IH by exact H. rewrite dict_get_dict_set. now rewrite E.
Qed.

Lemma pick_ions_app (l1 l2 : list string) (acc : dict Q) :
  pick_ions db (l1 ++ l2) acc = (d <- pick_ions db l1 acc ;; pick_ions db l2 d).
Proof.
  revert acc. induction l1 as [|h l1 IH]; simpl; intros acc; [reflexivity|].
  destruct (in_OH h); simpl; [apply IH|].
  destruct (getitem (ExpFormEnergy db) h) as [[|kv ions] | k]; simpl; auto.
Qed.

Lemma pick_ions_unlisted (elts : list string) (acc d : dict Q) (key : string) :
  (forall e tbl, In e elts -> dict_get (ExpFormEnergy db) e = Some tbl ->
     dict_get tbl key = None) ->
  pick_ions db elts acc = Ok d -> dict_get d key = dict_get acc key.
Proof.
  revert acc. induction elts as [|h elts IH]; simpl; intros acc H P.
  - now injection P as <-.
  - assert (H' : forall e tbl, In e elts ->
              dict_get (ExpFormEnergy db) e = Some tbl -> dict_get tbl key = None)
      by (intros; eapply H; eauto).
    destruct (in_OH h); simpl in P; [eauto|].
    apply bind_Ok in P. destruct P as (ions & G & P). apply getitem_Ok in G.
    destruct ions as [|kv ions]; [eauto|].
    rewrite (IH _ H' P). apply dict_get_dict_update_other.
    eapply H; [now left | exact G].
Qed.

Lemma NoDup_keys_value {V : Type} (d : dict V) (k : string) (x v : V) :
  NoDup (keys d) -> In (k, x) d -> dict_get d k = Some v -> x = v.
Proof.
  induction d as [|[k0 v0] d IH]; simpl; intros ND I G; [contradiction|].
  inversion ND as [|? ? Hk ND']; subst.
  destruct (String.eqb k0 k) eqn:E.
  - apply String.eqb_eq in E. subst k0. injection G as <-.
    destruct I as [[= ->] | I]; [reflexivity|].
    exfalso. apply Hk. apply in_map_iff. now exists (k, x).
  - apply String.eqb_neq in E. destruct I as [[= -> _] | I]; [congruence|].
    auto.
Qed.

(** X11: an ion formula recorded under several elements of the compound
    enters the diagram with the energy recorded under the last of them, in
    the order of the composition: the later record replaces the earlier
    one when the records are merged. *)
Theorem last_record_wins (self : Pourbaix2D) (m ion_concentration : Q)
    (pbx : PourbaixEntry) (ions : list PourbaixEntry)
    (l1 l2 : list string) (elt key : string) (tbl : dict Q) (v : Q)
    (e : PourbaixEntry) :
  make_entries db self m ion_concentration = Ok (pbx, ions) ->
  filter (fun elt => negb (in_OH elt)) (elements (_composition self))
    = l1 ++ elt :: l2 ->
  dict_get (ExpFormEnergy db) elt = Some tbl ->
  NoDup (keys tbl) ->
  dict_get tbl key = Some v ->
  (forall e' tbl', In e' l2 -> dict_get (ExpFormEnergy db) e' = Some tbl' ->
     dict_get tbl' key = None) ->
  In e ions -> name e = key ->
  uncorrected_energy e = v.
Proof.
  intros H Hs Ht ND Hv Hl2 I Hn. apply make_entries_Ok in H.
  destruct H as (d & fe & Hp & _ & _ & Hl).
  assert (NDd : NoDup (keys d)).
  { eapply pick_ions_NoDup; [|exact Hp]. constructor. }
  assert (OH : in_OH elt = false).
  { assert (J : In elt (filter (fun elt => negb (in_OH elt))
                          (elements (_composition self))))
      by (rewrite Hs; apply in_or_app; right; now left).
    apply filter_In in J. now apply negb_true_iff. }
  assert (G : dict_get d key = Some v).
  { unfold chemsys in Hp. simpl in Hp. rewrite Hs in Hp.
    change (pick_ions db (l1 ++ elt :: l2) [] = Ok d) in Hp.
    rewrite pick_ions_app in Hp. apply bind_Ok in Hp.
    destruct Hp as (d1 & _ & Hp). simpl in Hp. rewrite OH in Hp. simpl in Hp.
    unfold getitem in Hp. rewrite Ht in Hp. simpl in Hp.
    destruct tbl as [|kv tbl0]; [discriminate|].
    rewrite (pick_ions_unlisted _ _ _ _ Hl2 Hp).
    rewrite dict_get_dict_update by exact ND. now rewrite Hv. }
  rewrite filter_chemsys in Hl. apply ion_loop_Ok in Hl.
  destruct Hl as [-> _]. simpl in I.
  apply in_flat_map in I. destruct I as (el & _ & I).
  apply in_appended in I. destruct I as (k & x & Hk & E).
  apply ion_entry_Some in E. destruct E as (c & _ & _ & ->).
  simpl in *. subst k. eapply NoDup_keys_value; eauto.
Qed.
End MergeFacts.

(** * Properties of [utils.py] *)

Module UtilsFacts.
Import Utils.

(** ** Text *)

Lemma length_append (s1 s2 : string) :
  String.length (s1 ++ s2) = (String.length s1 + String.length s2)%nat.
Proof. induction s1 as [|c s1 IH]; simpl; [reflexivity | now rewrite IH]. Qed.

Lemma substring_append (s1 s2 : string) :
  substring 0 (String.length s1) (s1 ++ s2) = s1.
Proof. induction s1 as [|c s1 IH]; simpl; [now destruct s2 | now rewrite IH]. Qed.

(** Cutting off as many characters as were added gives the string back. *)
Lemma drop_last_append (s1 s2 : string) :
  drop_last (String.length s2) (s1 ++ s2) = s1.
Proof.
  unfold drop_last. rewrite length_append, Nat.add_sub. apply substring_append.
Qed.

(** ** The world *)

Lemma lookup_store {V : Type} (d : list (string * V)) (k k' : string) (v : V) :
  lookup (store d k v) k' = if String.eqb k k' then Some v else lookup d k'.
Proof.
  induction d as [|[k0 v0] d IH]; simpl.
  - reflexivity.
  - destruct (String.eqb k0 k) eqn:E; simpl.
    + apply String.eqb_eq in E. subst k0. destruct (String.eqb k k'); reflexivity.
    + destruct (String.eqb k0 k') eqn:E'; [|exact IH].
      apply String.eqb_eq in E'. subst k0.
      rewrite String.eqb_sym in E. now rewrite E.
Qed.

Lemma lookup_delete {V : Type} (d : list (string * V)) (k k' : string) :
  lookup (delete d k) k' = if String.eqb k k' then None else lookup d k'.
Proof.
  induction d as [|[k0 v0] d IH]; simpl.
  - now destruct (String.eqb k k').
  - destruct (String.eqb k0 k) eqn:E; simpl.
    + apply String.eqb_eq in E. subst k0. rewrite IH.
      destruct (String.eqb k k'); reflexivity.
    + destruct (String.eqb k0 k') eqn:E'; [|exact IH].
      apply String.eqb_eq in E'. subst k0.
      rewrite String.eqb_sym in E. now rewrite E.
Qed.

(** ** [write_potcar] *)

Lemma stem_of_choice (element type : string) :
  (if String.eqb type "regular"
   then (if String.eqb type "" then element else element ++ "_" ++ type)%string
   else drop_last (String.length type + 1)
          (if String.eqb type "" then element else element ++ "_" ++ type)%string)
  = stem element type.
Proof.
  unfold stem. destruct (String.eqb type "regular") eqn:R.
  - apply String.eqb_eq in R. subst type. reflexivity.
  - destruct (String.eqb type "") eqn:E.
    + apply String.eqb_eq in E. subst type. reflexivity.
    + rewrite Nat.add_1_r.
      change (S (String.length type)) with (String.length ("_" ++ type)).
      apply drop_last_append.
Qed.

Lemma drop_sv (x : string) : drop_last 3 (x ++ "_sv") = x.
Proof. exact (drop_last_append x "_sv"). Qed.

Lemma drop_pv (x : string) : drop_last 3 (x ++ "_pv") = x.
Proof. exact (drop_last_append x "_pv"). Qed.

Lemma drop_3 (x : string) : drop_last 2 (x ++ "_3") = x.
Proof. exact (drop_last_append x "_3"). Qed.

Lemma bindM_exists {B : Type} (path : string) (k : bool -> M B) (w : world) :
  (here <~ exists_ path ;; k here) w = k (has_file w path) w.
Proof. reflexivity. Qed.

Lemma bindM_print {B : Type} (line : string) (k : unit -> M B) (w : world) :
  (u <~ print line ;; k u) w
  = k tt {| files := files w; stdout := stdout w ++ [line] |}.
Proof. reflexivity. Qed.

Lemma has_file_stdout (fs : list (string * list string)) (out out' : list string)
    (path : string) :
  has_file {| files := fs; stdout := out |} path
  = has_file {| files := fs; stdout := out' |} path.
Proof. reflexivity. Qed.

(** What [choose] returns and prints, in the terms of [chosen] and
    [messages]; it changes no file. *)
Lemma choose_runs (w : world) (pot_path element type : string) :
  choose pot_path element type w
  = ({| files := files w;
        stdout := stdout w ++ messages w pot_path element type |},
     Returned (chosen w pot_path element type)).
Proof.
  unfold choose. cbv zeta. rewrite stem_of_choice, drop_sv, drop_pv, drop_3.
  unfold messages, chosen, candidates. cbn [hd find].
  set (c0 := (if String.eqb type "" then element else element ++ "_" ++ type)%string).
  set (b := stem element type).
  destruct w as [fs out]. cbn [files stdout].
  rewrite bindM_exists.
  destruct (has_file _ (potcar_path pot_path c0)) eqn:E0.
  { unfold ret. now rewrite app_nil_r. }
  rewrite bindM_print, bindM_exists. cbn [files stdout].
  rewrite (has_file_stdout fs _ out).
  destruct (has_file _ (potcar_path pot_path (b ++ "_sv"))) eqn:E1.
  { rewrite bindM_print. unfold ret. cbn [files stdout].
    rewrite E1. now rewrite <- app_assoc. }
  rewrite bindM_exists. rewrite (has_file_stdout fs _ out).
  destruct (has_file _ (potcar_path pot_path (b ++ "_pv"))) eqn:E2.
  { rewrite bindM_print. unfold ret. cbn [files stdout].
    rewrite E2. now rewrite <- app_assoc. }
  rewrite bindM_exists. rewrite (has_file_stdout fs _ out).
  destruct (has_file _ (potcar_path pot_path (b ++ "_3"))) eqn:E3.
  { rewrite bindM_print. unfold ret. cbn [files stdout].
    rewrite E3. now rewrite <- app_assoc. }
  rewrite bindM_exists. rewrite (has_file_stdout fs _ out).
  destruct (has_file _ (potcar_path pot_path b)) eqn:E4.
  { rewrite bindM_print. unfold ret. cbn [files stdout].
    rewrite E4. now rewrite <- app_assoc. }
  rewrite bindM_print. unfold ret. cbn [files stdout].
  rewrite E4. now rewrite <- app_assoc.
Qed.

(** X12: for one element, [choose] returns the first of the five names
    that has a potential file, and the bare stem, the last of the five,
    when none has: the name returned is always one of the five, and it has
    a file as soon as any of them has.  It prints what it found and
    changes no file.  The stem is the element itself for a type such as
    [pv], the element with [_regular] for the type [regular], and the
    element without its last character for the empty type. *)
Theorem choose_first_existing (w : world) (pot_path element type : string) :
  exists w',
    choose pot_path element type w
    = (w', Returned (chosen w pot_path element type))
    /\ files w' = files w
    /\ stdout w' = stdout w ++ messages w pot_path element type
    /\ In (chosen w pot_path element type) (candidates element type)
    /\ (forall c, In c (candidates element type) ->
          has_file w (potcar_path pot_path c) = true ->
          has_file w (potcar_path pot_path (chosen w pot_path element type))
          = true).
Proof.
  eexists. split; [apply choose_runs|]. cbn [files stdout].
  split; [reflexivity|]. split; [reflexivity|].
  unfold chosen.
  destruct (find (fun c => has_file w (potcar_path pot_path c))
              (candidates element type)) as [c0|] eqn:F.
  - apply find_some in F. destruct F as [I H].
    split; [exact I|]. intros; exact H.
  - split; [simpl; tauto|].
    intros c I H. pose proof (find_none _ _ F c I) as N. simpl in N.
    congruence.
Qed.

Lemma chosen_files (w w' : world) (pot_path element type : string) :
  files w' = files w ->
  chosen w' pot_path element type = chosen w pot_path element type
  /\ messages w' pot_path element type = messages w pot_path element type.
Proof.
  intros E. unfold messages, chosen, has_file. rewrite E. auto.
Qed.

(** The names chosen for the elements, each with the type at its place. *)
Lemma choose_all_enough (pot_path : string) (types : list string)
    (elements : list string) (i : nat) (w : world) :
  (i + List.length elements <= List.length types)%nat ->
  choose_all pot_path types i elements w
  = ({| files := files w;
        stdout := stdout w
          ++ flat_map (fun et => messages w pot_path (fst et) (snd et))
               (combine elements (skipn i types)) |},
     Returned (map (fun et => chosen w pot_path (fst et) (snd et))
                 (combine elements (skipn i types)))).
Proof.
  revert i w. induction elements as [|e es IH]; intros i w H.
  - simpl. unfold ret. rewrite app_nil_r. now destruct w.
  - simpl in H. cbn [choose_all].
    destruct (nth_error types i) as [t|] eqn:N.
    2:{ apply nth_error_None in N. lia. }
    assert (Sk : skipn i types = t :: skipn (S i) types).
    { clear - N. revert i N. induction types as [|x l IHl]; intros [|i] N;
        simpl in *; try discriminate; [now injection N as -> | auto]. }
    unfold bindM at 1. unfold index. rewrite N. unfold ret at 1.
    unfold bindM at 1. rewrite choose_runs.
    unfold bindM at 1. rewrite IH by lia. cbn [files stdout]. unfold ret.
    rewrite Sk. cbn [combine map flat_map fst snd].
    set (w1 := {| files := files w;
                  stdout := stdout w ++ messages w pot_path e t |}).
    assert (F : files w1 = files w) by reflexivity.
    assert (E1 : flat_map (fun et => messages w1 pot_path (fst et) (snd et))
                   (combine es (skipn (S i) types))
                 = flat_map (fun et => messages w pot_path (fst et) (snd et))
                   (combine es (skipn (S i) types))).
    { apply flat_map_ext. intros [a b]. now apply chosen_files. }
    assert (E2 : map (fun et => chosen w1 pot_path (fst et) (snd et))
                   (combine es (skipn (S i) types))
                 = map (fun et => chosen w pot_path (fst et) (snd et))
                   (combine es (skipn (S i) types))).
    { apply map_ext. intros [a b]. now apply chosen_files. }
    rewrite E1, E2. unfold w1. cbn [files stdout]. now rewrite <- app_assoc.
Qed.

Lemma choose_all_short (pot_path : string) (types : list string)
    (elements : list string) (i : nat) (w : world) :
  (List.length types < i + List.length elements)%nat ->
  (i <= List.length types)%nat ->
  exists w', choose_all pot_path types i elements w = (w', Raised IndexError)
    /\ files w' = files w.
Proof.
  revert i w. induction elements as [|e es IH]; intros i w H Hi.
  - simpl in H. lia.
  - cbn [choose_all]. unfold bindM at 1. unfold index.
    destruct (nth_error types i) as [t|] eqn:N.
    + assert (i < List.length types)%nat by (apply nth_error_Some; congruence).
      unfold ret at 1. unfold bindM at 1. rewrite choose_runs.
      unfold bindM at 1.
      destruct (IH (S i) {| files := files w;
                            stdout := stdout w ++ messages w pot_path e t |})
        as (w' & E & F); [simpl in H; lia | lia |].
      rewrite E. exists w'. auto.
    + exists w. auto.
Qed.

Lemma potcar_path_not_POTCAR (pot_path element : string) :
  potcar_path pot_path element <> "POTCAR"%string.
Proof.
  intros E. apply (f_equal String.length) in E. unfold potcar_path in E.
  rewrite !length_append in E. simpl in E. lia.
Qed.

Lemma write_lines_spec (path : string) (lines cur : list string) (w : world) :
  lookup (files w) path = Some cur ->
  exists w', write_lines path lines w = (w', Returned tt)
    /\ lookup (files w') path = Some (cur ++ lines)
    /\ (forall p, p <> path -> lookup (files w') p = lookup (files w) p)
    /\ stdout w' = stdout w.
Proof.
  revert cur w. induction lines as [|line lines IH]; intros cur w H.
  - exists w. simpl. rewrite app_nil_r. auto.
  - cbn [write_lines]. unfold bindM at 1. unfold write at 1. rewrite H.
    destruct (IH (cur ++ [line])
                {| files := store (files w) path (cur ++ [line]);
                   stdout := stdout w |})
      as (w' & E & L & O & S).
    { simpl. rewrite lookup_store. now rewrite String.eqb_refl. }
    exists w'. rewrite E. split; [reflexivity|]. split; [|split].
    + rewrite L. now rewrite <- app_assoc.
    + intros p Hp. rewrite (O p Hp). simpl. rewrite lookup_store.
      destruct (String.eqb path p) eqn:Ep; [|reflexivity].
      apply String.eqb_eq in Ep. congruence.
    + exact S.
Qed.

Lemma copy_all_spec (good : list string) (rest : list string)
    (cur : list string) (w : world) :
  lookup (files w) "POTCAR" = Some cur ->
  (forall p, In p good -> p <> "POTCAR"%string /\ has_file w p = true) ->
  exists w1,
    lookup (files w1) "POTCAR" = Some (cur ++ List.concat (map (content w) good))
    /\ (forall p, p <> "POTCAR"%string -> lookup (files w1) p = lookup (files w) p)
    /\ stdout w1 = stdout w
    /\ copy_all (good ++ rest) w = copy_all rest w1.
Proof.
  revert cur w. induction good as [|p good IH]; intros cur w H G.
  - exists w. simpl. rewrite app_nil_r. auto.
  - destruct (G p (or_introl eq_refl)) as [Np Hp].
    cbn [app copy_all]. unfold bindM at 1. unfold readlines at 1.
    unfold has_file in Hp.
    destruct (lookup (files w) p) as [lines|] eqn:Lp; [|discriminate].
    unfold bindM at 1.
    destruct (write_lines_spec "POTCAR" lines cur w H) as (w' & E & L & O & S).
    rewrite E.
    destruct (IH (cur ++ lines) w' L) as (w1 & L1 & O1 & S1 & C1).
    { intros q Hq. destruct (G q (or_intror Hq)) as [Nq Hq'].
      split; [exact Nq|]. unfold has_file in *. now rewrite (O q Nq). }
    exists w1. split; [|split; [|split]].
    + rewrite L1. cbn [map List.concat]. rewrite <- app_assoc.
      assert (Ec : content w p = lines) by (unfold content; now rewrite Lp).
      assert (Em : map (content w') good = map (content w) good).
      { apply map_ext_in. intros q Hq.
        destruct (G q (or_intror Hq)) as [Nq _].
        unfold content. now rewrite (O q Nq). }
      now rewrite Ec, Em.
    + intros q Nq. rewrite (O1 q Nq). apply O, Nq.
    + congruence.
    + exact C1.
Qed.

Section PotcarFacts.
Variable potcar_symbols : list (string * string).

Lemma write_potcar_steps (pot_path : string) (types lines : list string)
    (line : string) (w : world) :
  lookup (files w) "POSCAR" = Some lines ->
  nth_error lines 5 = Some line ->
  (List.length (split line) <= List.length types)%nat ->
  write_potcar potcar_symbols pot_path (Some types) w
  = copy_all
      (map (potcar_path pot_path)
         (map (fun et => chosen w pot_path (fst et) (snd et))
            (combine (split line) types)))
      {| files := store (files w) "POTCAR" [];
         stdout := stdout w
           ++ flat_map (fun et => messages w pot_path (fst et) (snd et))
                (combine (split line) types) |}.
Proof.
  intros HP H5 Hlen. unfold write_potcar.
  unfold bindM at 1. unfold readlines at 1. rewrite HP.
  unfold bindM at 1. unfold index at 1. rewrite H5. unfold ret at 1.
  unfold bindM at 1. unfold ret at 1.
  unfold bindM at 1. rewrite choose_all_enough by (simpl; lia).
  cbn [skipn]. unfold bindM at 1. unfold open_w. reflexivity.
Qed.

(** X13: when every element of line 6 of POSCAR has a type and a
    potential file under one of its names, [write_potcar] returns, POTCAR
    holds the lines of the chosen potential files, one file after the
    other in the order of the elements, and no other file changes. *)
Theorem write_potcar_concatenates (pot_path : string) (types lines : list string)
    (line : string) (w : world) :
  lookup (files w) "POSCAR" = Some lines ->
  nth_error lines 5 = Some line ->
  (List.length (split line) <= List.length types)%nat ->
  Forall (fun et =>
    has_file w (potcar_path pot_path (chosen w pot_path (fst et) (snd et))) = true)
    (combine (split line) types) ->
  exists w',
    write_potcar potcar_symbols pot_path (Some types) w = (w', Returned tt)
    /\ lookup (files w') "POTCAR"
       = Some (List.concat
                 (map (fun et =>
                    content w (potcar_path pot_path
                                 (chosen w pot_path (fst et) (snd et))))
                    (combine (split line) types)))
    /\ (forall p, p <> "POTCAR"%string -> lookup (files w') p = lookup (files w) p).
Proof.
  intros HP H5 Hlen Hall.
  rewrite (write_potcar_steps pot_path types lines line w HP H5 Hlen).
  set (names := map (fun et => chosen w pot_path (fst et) (snd et))
                  (combine (split line) types)).
  set (w2 := {| files := store (files w) "POTCAR" []; stdout := _ |}).
  assert (L2 : lookup (files w2) "POTCAR" = Some []).
  { simpl. rewrite lookup_store. now rewrite String.eqb_refl. }
  assert (O2 : forall p, p <> "POTCAR"%string ->
                 lookup (files w2) p = lookup (files w) p).
  { intros p Np. simpl. rewrite lookup_store.
    destruct (String.eqb "POTCAR" p) eqn:E; [|reflexivity].
    apply String.eqb_eq in E. congruence. }
  destruct (copy_all_spec (map (potcar_path pot_path) names) [] [] w2 L2)
    as (w1 & L1 & O1 & _ & C1).
  { intros p Hp. apply in_map_iff in Hp. destruct Hp as (n & <- & Hn).
    split; [apply potcar_path_not_POTCAR|].
    unfold has_file. rewrite O2 by apply potcar_path_not_POTCAR.
    unfold names in Hn. apply in_map_iff in Hn. destruct Hn as (et & <- & Het).
    rewrite Forall_forall in Hall. apply (Hall et Het). }
  rewrite app_nil_r in C1. rewrite C1. exists w1. split; [reflexivity|]. split.
  - rewrite L1. cbn [app]. f_equal. f_equal. unfold names. rewrite !map_map.
    apply map_ext. intros et. unfold content.
    now rewrite O2 by apply potcar_path_not_POTCAR.
  - intros p Np. rewrite (O1 p Np). apply O2, Np.
Qed.

Lemma chosen_none (w : world) (pot_path element type : string) :
  (forall c, In c (candidates element type) ->
     has_file w (potcar_path pot_path c) = false) ->
  chosen w pot_path element type = stem element type
  /\ messages w pot_path element type
     = [("Potential file for " ++ hd ""%string (candidates element type)
         ++ " does not exist. Looking for bestvariation... ")%string;
        ("No pseudopotential found for " ++ stem element type)%string].
Proof.
  intros H. assert (C : chosen w pot_path element type = stem element type).
  { unfold chosen.
    destruct (find (fun c => has_file w (potcar_path pot_path c))
                (candidates element type)) as [c|] eqn:F; [|reflexivity].
    apply find_some in F. destruct F as [I F]. rewrite (H c I) in F.
    discriminate. }
  split; [exact C|]. unfold messages. rewrite C.
  rewrite (H (hd ""%string (candidates element type))) by (simpl; auto).
  rewrite (H (stem element type)) by (simpl; auto 6). reflexivity.
Qed.

Lemma combine_app {A B : Type} (l1 l2 : list A) (m1 m2 : list B) :
  List.length l1 = List.length m1 ->
  combine (l1 ++ l2) (m1 ++ m2) = combine l1 m1 ++ combine l2 m2.
Proof.
  revert m1. induction l1 as [|a l1 IH]; intros [|b m1] H; simpl in *;
    try discriminate; [reflexivity|].
  f_equal. apply IH. lia.
Qed.

(** X14: when the first element of POSCAR none of whose five names has a
    potential file is reached, [write_potcar] has printed that no
    pseudopotential was found for its stem and raises [IOError] on the
    stem's path; POTCAR is left holding only the potentials of the elements
    before that one. *)
Theorem write_potcar_missing (pot_path : string) (lines : list string)
    (line : string) (w : world) (es1 es2 ts1 ts2 : list string)
    (element type : string) :
  lookup (files w) "POSCAR" = Some lines ->
  nth_error lines 5 = Some line ->
  split line = es1 ++ element :: es2 ->
  List.length ts1 = List.length es1 ->
  (List.length es2 <= List.length ts2)%nat ->
  Forall (fun et =>
    has_file w (potcar_path pot_path (chosen w pot_path (fst et) (snd et))) = true)
    (combine es1 ts1) ->
  (forall c, In c (candidates element type) ->
     has_file w (potcar_path pot_path c) = false) ->
  exists w',
    write_potcar potcar_symbols pot_path (Some (ts1 ++ type :: ts2)) w
    = (w', Raised (IOError (potcar_path pot_path (stem element type))))
    /\ In ("No pseudopotential found for " ++ stem element type)%string (stdout w')
    /\ lookup (files w') "POTCAR"
       = Some (List.concat
                 (map (fun et =>
                    content w (potcar_path pot_path
                                 (chosen w pot_path (fst et) (snd et))))
                    (combine es1 ts1))).
Proof.
  intros HP H5 Hs Hl1 Hl2 Hall Hnone.
  rewrite (write_potcar_steps pot_path (ts1 ++ type :: ts2) lines line w HP H5)
    by (rewrite Hs, !length_app; simpl; lia).
  rewrite Hs. rewrite combine_app by congruence. cbn [combine].
  rewrite !map_app, flat_map_app. cbn [map flat_map fst snd].
  destruct (chosen_none w pot_path element type Hnone) as [C Msg].
  rewrite C, Msg.
  set (names := map (fun et => chosen w pot_path (fst et) (snd et))
                  (combine es1 ts1)).
  set (w2 := {| files := store (files w) "POTCAR" []; stdout := _ |}).
  assert (L2 : lookup (files w2) "POTCAR" = Some []).
  { simpl. rewrite lookup_store. now rewrite String.eqb_refl. }
  assert (O2 : forall p, p <> "POTCAR"%string ->
                 lookup (files w2) p = lookup (files w) p).
  { intros p Np. simpl. rewrite lookup_store.
    destruct (String.eqb "POTCAR" p) eqn:E; [|reflexivity].
    apply String.eqb_eq in E. congruence. }
  destruct (copy_all_spec (map (potcar_path pot_path) names)
              (potcar_path pot_path (stem element type)
               :: map (potcar_path pot_path)
                    (map (fun et => chosen w pot_path (fst et) (snd et))
                       (combine es2 ts2)))
              [] w2 L2)
    as (w1 & L1 & O1 & S1 & C1).
  { intros p Hp. apply in_map_iff in Hp. destruct Hp as (n & <- & Hn).
    split; [apply potcar_path_not_POTCAR|].
    unfold has_file. rewrite O2 by apply potcar_path_not_POTCAR.
    unfold names in Hn. apply in_map_iff in Hn. destruct Hn as (et & <- & Het).
    rewrite Forall_forall in Hall. apply (Hall et Het). }
  rewrite C1. cbn [copy_all]. unfold bindM at 1. unfold readlines.
  assert (Miss : lookup (files w1) (potcar_path pot_path (stem element type))
                 = None).
  { rewrite O1, O2 by apply potcar_path_not_POTCAR.
    specialize (Hnone (stem element type)). unfold has_file in Hnone.
    destruct (lookup (files w) (potcar_path pot_path (stem element type)));
      [|reflexivity].
    discriminate Hnone. simpl. auto 6. }
  rewrite Miss. exists w1. split; [reflexivity|]. split.
  - rewrite S1. unfold w2. cbn [stdout]. apply in_or_app. right.
    apply in_or_app. right. apply in_or_app. left. simpl. auto.
  - rewrite L1. cbn [app]. f_equal. f_equal. unfold names. rewrite !map_map.
    apply map_ext. intros et. unfold content.
    now rewrite O2 by apply potcar_path_not_POTCAR.
Qed.

(** X15: when [types] has fewer entries than line 6 of POSCAR has
    elements, [write_potcar] raises [IndexError] before it opens POTCAR:
    no file is changed. *)
Theorem write_potcar_few_types (pot_path : string) (types lines : list string)
    (line : string) (w : world) :
  lookup (files w) "POSCAR" = Some lines ->
  nth_error lines 5 = Some line ->
  (List.length types < List.length (split line))%nat ->
  exists w',
    write_potcar potcar_symbols pot_path (Some types) w = (w', Raised IndexError)
    /\ files w' = files w.
Proof.
  intros HP H5 Hlen. unfold write_potcar.
  unfold bindM at 1. unfold readlines at 1. rewrite HP.
  unfold bindM at 1. unfold index at 1. rewrite H5. unfold ret at 1.
  unfold bindM at 1. unfold ret at 1.
  unfold bindM at 1.
  destruct (choose_all_short pot_path types (split line) 0 w) as (w' & E & F);
    [simpl; lia | lia |].
  rewrite E. exists w'. auto.
Qed.
End PotcarFacts.

(** ** The default types *)

Lemma append_nil_r (s : string) : (s ++ "")%string = s.
Proof. induction s as [|c s IH]; simpl; congruence. Qed.

Lemma prefix_append (s1 s2 : string) : String.prefix s1 (s1 ++ s2) = true.
Proof.
  induction s1 as [|c s1 IH]; simpl; [now destruct s2|].
  destruct (ascii_dec c c); [exact IH | congruence].
Qed.

Lemma replace_from_skip (old new x s : string) :
  replace_from old new (String.length x) (x ++ s) = replace_from old new 0 s.
Proof.
  induction x as [|c x IH]; simpl; [|exact IH].
  destruct s; reflexivity.
Qed.

Lemma replace_match (old new s : string) :
  old <> EmptyString ->
  replace old new (old ++ s) = (new ++ replace old new s)%string.
Proof.
  intros H. unfold replace. destruct old as [|c o]; [congruence|].
  change ((String c o ++ s)%string) with (String c (o ++ s)).
  cbn [replace_from].
  change (String c (o ++ s)) with ((String c o ++ s)%string).
  rewrite prefix_append.
  replace (String.length (String c o) - 1)%nat with (String.length o)
    by (simpl; lia).
  now rewrite replace_from_skip.
Qed.

Lemma replace_absent (old new s : string) :
  contains old s = false -> replace old new s = s.
Proof.
  unfold replace. induction s as [|c s IH]; simpl; intros H; [reflexivity|].
  apply orb_false_iff in H. destruct H as [P C].
  cbn [String.prefix] in P.
  destruct old as [|a o]; [discriminate|]. cbn [String.prefix] in P |- *.
  rewrite P. now rewrite IH.
Qed.

Section DefaultTypeFacts.
Variable potcar_symbols : list (string * string).

Lemma default_type_of (elt symbol : string) :
  plain_symbol elt symbol ->
  hd ""%string (candidates elt (replace "_" "" (replace elt "" symbol))) = symbol.
Proof.
  intros [Ne [-> | (t & -> & Nt & C1 & C2)]].
  - pose proof (replace_match elt "" "" Ne) as E.
    rewrite append_nil_r in E. rewrite E. reflexivity.
  - rewrite replace_match by exact Ne.
    rewrite (replace_absent elt "" ("_" ++ t) C1).
    change ("" ++ "_" ++ t)%string with ("_" ++ t)%string.
    rewrite replace_match by discriminate.
    rewrite (replace_absent "_" "" t C2).
    simpl. destruct (String.eqb t "") eqn:E; [|reflexivity].
    apply String.eqb_eq in E. congruence.
Qed.

(** With the default types every element whose symbol is plain gets a
    type, and the first name tried for it is that symbol; nothing is read
    or printed on the way. *)
Lemma default_types_read_back (elements : list string) (w : world) :
  Forall (fun elt => exists symbol,
            lookup potcar_symbols elt = Some symbol /\ plain_symbol elt symbol)
    elements ->
  exists types,
    default_types potcar_symbols elements w = (w, Returned types)
    /\ Forall2 (fun elt type =>
         lookup potcar_symbols elt = Some (hd ""%string (candidates elt type)))
         elements types.
Proof.
  induction 1 as [|elt elements (symbol & L & P) _ (types & E & F)].
  - exists []. split; [reflexivity | constructor].
  - exists (replace "_" "" (replace elt "" symbol) :: types). split.
    + cbn [default_types]. unfold bindM at 1. rewrite L. unfold ret at 1.
      unfold bindM at 1. rewrite E. reflexivity.
    + constructor; [|exact F]. now rewrite default_type_of.
Qed.

Lemma default_types_unknown (elements : list string) (elt : string) (w : world) :
  In elt elements -> lookup potcar_symbols elt = None ->
  exists k, default_types potcar_symbols elements w = (w, Raised (KeyErr k))
    /\ In k elements /\ lookup potcar_symbols k = None.
Proof.
  induction elements as [|e es IH]; intros I N; [contradiction|].
  cbn [default_types]. unfold bindM at 1.
  destruct (lookup potcar_symbols e) as [s|] eqn:L.
  - destruct I as [-> | I]; [congruence|].
    destruct (IH I N) as (k & E & Ik & Nk).
    unfold ret at 1. unfold bindM at 1. rewrite E. exists k. simpl. auto.
  - exists e. simpl. auto.
Qed.
(** X16: when the symbol in [potcar_symbols.yaml] of every element of
    line 6 of POSCAR is plain, leaving [types] at its default is the same
    as passing, for each element, a type for which the first name tried is
    that symbol. *)
Theorem write_potcar_default_types (pot_path : string) (lines : list string)
    (line : string) (w : world) :
  lookup (files w) "POSCAR" = Some lines ->
  nth_error lines 5 = Some line ->
  Forall (fun elt => exists symbol,
            lookup potcar_symbols elt = Some symbol /\ plain_symbol elt symbol)
    (split line) ->
  exists types,
    write_potcar potcar_symbols pot_path None w
    = write_potcar potcar_symbols pot_path (Some types) w
    /\ Forall2 (fun elt type =>
         lookup potcar_symbols elt = Some (hd ""%string (candidates elt type)))
         (split line) types.
Proof.
  intros HP H5 F.
  destruct (default_types_read_back (split line) w F) as (types & E & F2).
  exists types. split; [|exact F2].
  unfold write_potcar.
  unfold bindM at 1. unfold readlines at 1. rewrite HP.
  unfold bindM at 1. unfold index at 1. rewrite H5. unfold ret at 1.
  unfold bindM at 1. rewrite E.
  symmetry.
  unfold bindM at 1. unfold readlines at 1. rewrite HP.
  unfold bindM at 1. unfold index at 1. rewrite H5. unfold ret at 1.
  unfold bindM at 1. unfold ret at 1. reflexivity.
Qed.

(** X17: with the default types an element of line 6 of POSCAR that is
    not in [potcar_symbols.yaml] makes [write_potcar] raise [KeyError] for
    such an element, before anything is printed or written. *)
Theorem write_potcar_unknown_element (pot_path : string) (lines : list string)
    (line elt : string) (w : world) :
  lookup (files w) "POSCAR" = Some lines ->
  nth_error lines 5 = Some line ->
  In elt (split line) -> lookup potcar_symbols elt = None ->
  exists k,
    write_potcar potcar_symbols pot_path None w = (w, Raised (KeyErr k))
    /\ In k (split line) /\ lookup potcar_symbols k = None.
Proof.
  intros HP H5 I N.
  destruct (default_types_unknown (split line) elt w I N) as (k & E & R).
  exists k. split; [|exact R].
  unfold write_potcar.
  unfold bindM at 1. unfold readlines at 1. rewrite HP.
  unfold bindM at 1. unfold index at 1. rewrite H5. unfold ret at 1.
  unfold bindM at 1. now rewrite E.
Qed.
End DefaultTypeFacts.

(** ** [get_spacing] *)

Lemma bindM_Returned {A B : Type} (m : M A) (f : A -> M B) (w w' : world) (b : B) :
  bindM m f w = (w', Returned b) ->
  exists a w1, m w = (w1, Returned a) /\ f a w1 = (w', Returned b).
Proof.
  unfold bindM. destruct (m w) as [w1 [a | e]]; [eauto | discriminate].
Qed.

Lemma index_Returned {A : Type} (l : list A) (i : nat) (w w' : world) (x : A) :
  index l i w = (w', Returned x) -> nth_error l i = Some x /\ w' = w.
Proof.
  unfold index. destruct (nth_error l i); unfold ret, raise; intros [= <- E];
    auto. now subst.
Qed.

Section SpacingFacts.
Variable float : string -> option Q.
Variable num_sites : nat.

Lemma to_float_Returned (s : string) (w w' : world) (x : Q) :
  to_float float s w = (w', Returned x) -> float s = Some x /\ w' = w.
Proof.
  unfold to_float. destruct (float s); unfold ret, raise; intros [= <- E];
    auto. now subst.
Qed.

Lemma z_coords_wrapped (cutoff : Q) (coords : list (list string))
    (w w' : world) (zs : list Q) :
  0 <= cutoff -> cutoff < 1 ->
  (forall coord t z, In coord coords -> nth_error coord 2 = Some t ->
     float t = Some z -> 0 <= z /\ z <= 1) ->
  z_coords_of float cutoff coords w = (w', Returned zs) ->
  w' = w /\ List.length zs = List.length coords
  /\ Forall (fun z => cutoff - 1 < z /\ z <= cutoff) zs.
Proof.
  intros Hc Hc1. revert w w' zs. induction coords as [|coord coords IH];
    intros w w' zs Hz H.
  - injection H as <- <-. auto.
  - cbn [z_coords_of] in H.
    apply bindM_Returned in H. destruct H as (t & w1 & Ht & H).
    apply index_Returned in Ht. destruct Ht as [Ht ->].
    apply bindM_Returned in H. destruct H as (z & w1 & Hf & H).
    apply to_float_Returned in Hf. destruct Hf as [Hf ->].
    apply bindM_Returned in H. destruct H as (zs' & w1 & Hr & H).
    injection H as <- <-.
    destruct (IH w w1 zs' (fun c t' z' I => Hz c t' z' (or_intror I)) Hr)
      as (-> & L & F).
    destruct (Hz coord t z (or_introl eq_refl) Ht Hf) as [Hz0 Hz1].
    split; [reflexivity|]. split; [simpl; now rewrite L|].
    constructor; [|exact F].
    destruct (Qlt_bool cutoff z) eqn:E.
    + apply Qlt_bool_iff in E. clear - Hc Hc1 Hz0 Hz1 E. split; lra.
    + assert (N : ~ cutoff < z)
        by (intros C; apply Qlt_bool_iff in C; congruence).
      clear - Hc Hc1 Hz0 Hz1 N. split; lra.
Qed.


End SpacingFacts.

(** ** [get_status] *)

Section StatusFacts.
Variable qstat : list string.

Lemma find_state_world (lines : list string) (j : nat) (w : world) :
  exists r, find_state lines j w = (w, r)
    /\ match r with
       | Returned _ => True
       | Raised e => e = IndexError
       end.
Proof.
  induction j as [|j IH]; cbn [find_state].
  - exists (Returned None). auto.
  - unfold bindM at 1. unfold index at 1.
    destruct (nth_error lines (S j)) as [line|]; unfold ret, raise.
    + destruct (contains "job_state" line); [|exact IH].
      unfold bindM. unfold index.
      destruct (nth_error (split_on "=" line) 1); unfold ret, raise;
        eexists; split; try reflexivity; simpl; auto.
    + eexists; split; try reflexivity; simpl; auto.
Qed.

Lemma find_state_Some (lines : list string) (j : nat) (w w' : world)
    (st : string) :
  find_state lines j w = (w', Returned (Some st)) ->
  exists j' line field,
    (1 <= j' <= j)%nat /\ nth_error lines j' = Some line
    /\ contains "job_state" line = true
    /\ nth_error (split_on "=" line) 1 = Some field /\ st = strip field.
Proof.
  induction j as [|j IH]; cbn [find_state]; intros H.
  - discriminate.
  - apply bindM_Returned in H. destruct H as (line & w1 & Hl & H).
    apply index_Returned in Hl. destruct Hl as [Hl ->].
    destruct (contains "job_state" line) eqn:C.
    + apply bindM_Returned in H. destruct H as (field & w1 & Hf & H).
      apply index_Returned in Hf. destruct Hf as [Hf ->].
      injection H as _ <-. exists (S j), line, field.
      repeat split; auto; lia.
    + destruct (IH H) as (j' & l & f & B & R). exists j', l, f.
      split; [lia | exact R].
Qed.

Lemma scan_world (lines : list string) (directory : string) (todo : list nat)
    (acc : option string) (w : world) :
  exists r, scan lines directory todo acc w = (w, r)
    /\ match r with
       | Returned _ => True
       | Raised e => e = IndexError
       end.
Proof.
  revert acc. induction todo as [|i todo IH]; intros acc; cbn [scan].
  - exists (Returned acc). auto.
  - unfold bindM at 1. unfold index at 1.
    destruct (nth_error lines i) as [line|]; unfold ret, raise;
      [|eexists; split; try reflexivity; simpl; auto].
    destruct (contains "Output_Path" line); [|apply IH].
    unfold bindM at 1. unfold index at 1.
    destruct (nth_error lines (i + 1)) as [next|]; unfold ret, raise;
      [|eexists; split; try reflexivity; simpl; auto].
    destruct (contains directory (strip line ++ strip next)); [|apply IH].
    unfold bindM at 1.
    destruct (find_state_world lines i w) as (r & -> & Hr).
    destruct r as [state | e]; [apply IH |].
    eexists; split; try reflexivity; simpl; auto.
Qed.

Lemma scan_Some (lines : list string) (directory : string) (todo : list nat)
    (acc : option string) (w w' : world) (st : string) :
  scan lines directory todo acc w = (w', Returned (Some st)) ->
  acc = Some st
  \/ exists i j line next state_line field,
       In i todo /\ (1 <= j <= i)%nat
       /\ nth_error lines i = Some line
       /\ contains "Output_Path" line = true
       /\ nth_error lines (i + 1) = Some next
       /\ contains directory (strip line ++ strip next) = true
       /\ nth_error lines j = Some state_line
       /\ contains "job_state" state_line = true
       /\ nth_error (split_on "=" state_line) 1 = Some field
       /\ st = strip field.
Proof.
  revert acc w. induction todo as [|i todo IH]; intros acc w; cbn [scan]; intros H.
  - injection H as _ <-. now left.
  - assert (K : forall acc' w1,
               scan lines directory todo acc' w1 = (w', Returned (Some st)) ->
               acc' = acc ->
               acc = Some st
               \/ exists i0 j line next state_line field,
                    In i0 (i :: todo) /\ (1 <= j <= i0)%nat
                    /\ nth_error lines i0 = Some line
                    /\ contains "Output_Path" line = true
                    /\ nth_error lines (i0 + 1) = Some next
                    /\ contains directory (strip line ++ strip next) = true
                    /\ nth_error lines j = Some state_line
                    /\ contains "job_state" state_line = true
                    /\ nth_error (split_on "=" state_line) 1 = Some field
                    /\ st = strip field).
    { intros acc' w1 H' ->. destruct (IH _ _ H') as [E | (i0 & j & R)];
        [now left|].
      right. exists i0, j. destruct R as (l & n & sl & f & I & R).
      exists l, n, sl, f. split; [now right | exact R]. }
    apply bindM_Returned in H. destruct H as (line & w1 & Hl & H).
    apply index_Returned in Hl. destruct Hl as [Hl ->].
    destruct (contains "Output_Path" line) eqn:CP; [|eapply K; eauto].
    apply bindM_Returned in H. destruct H as (next & w1 & Hn & H).
    apply index_Returned in Hn. destruct Hn as [Hn ->].
    destruct (contains directory (strip line ++ strip next)) eqn:CD;
      [|eapply K; eauto].
    apply bindM_Returned in H. destruct H as (state & w1 & Hs & H).
    destruct state as [s|]; [|eapply K; eauto].
    destruct (IH _ _ H) as [E | (i0 & j & l & n & sl & f & I & R)].
    + injection E as ->. right.
      destruct (find_state_Some _ _ _ _ _ Hs) as (j & sl & f & B & R).
      exists i, j, line, next, sl, f. split; [now left|]. tauto.
    + right. exists i0, j, l, n, sl, f. split; [now right | exact R].
Qed.

Lemma get_status_steps (directory : string) (w : world) :
  let lines := content w "my_jobs.txt" ++ qstat in
  let w1 := {| files := store (files w) "my_jobs.txt" lines;
               stdout := stdout w |} in
  get_status qstat directory w
  = match scan lines directory (seq 0 (List.length lines)) None w1 with
    | (w2, Returned job_state) =>
        ({| files := delete (files w2) "my_jobs.txt"; stdout := stdout w2 |},
         Returned job_state)
    | (w2, Raised e) => (w2, Raised e)
    end.
Proof.
  intros lines w1. unfold get_status.
  unfold bindM at 1. unfold append_jobs. fold (content w "my_jobs.txt").
  fold lines. fold w1.
  unfold bindM at 1. unfold readlines. cbn [files w1].
  rewrite lookup_store, String.eqb_refl. fold w1.
  unfold bindM at 1.
  destruct (scan lines directory (seq 0 (List.length lines)) None w1)
    as [w2 [st | e]]; reflexivity.
Qed.

(** X20: a state that [get_status] returns is the second [=]-separated
    field, stripped, of a line that mentions [job_state], and that line is
    at or above a line mentioning [Output_Path] which, joined with the line
    after it, mentions the directory; it is never line 0 of the listing. *)
Theorem get_status_sound (directory : string) (w w' : world) (st : string) :
  get_status qstat directory w = (w', Returned (Some st)) ->
  exists i j line next state_line field,
    (1 <= j <= i)%nat
    /\ nth_error (content w "my_jobs.txt" ++ qstat) i = Some line
    /\ contains "Output_Path" line = true
    /\ nth_error (content w "my_jobs.txt" ++ qstat) (i + 1) = Some next
    /\ contains directory (strip line ++ strip next) = true
    /\ nth_error (content w "my_jobs.txt" ++ qstat) j = Some state_line
    /\ contains "job_state" state_line = true
    /\ nth_error (split_on "=" state_line) 1 = Some field
    /\ st = strip field.
Proof.
  intros H. rewrite get_status_steps in H. cbv zeta in H.
  destruct (scan _ directory _ None _) as [w2 [js | e]] eqn:S; [|discriminate].
  injection H as _ ->.
  apply scan_Some in S. destruct S as [E | (i & j & l & n & sl & f & _ & R)];
    [discriminate|].
  exists i, j, l, n, sl, f. exact R.
Qed.

Lemma scan_no_path (lines : list string) (directory : string) (todo : list nat)
    (acc : option string) (w : world) :
  (forall line, In line lines -> contains "Output_Path" line = false) ->
  (forall i, In i todo -> (i < List.length lines)%nat) ->
  scan lines directory todo acc w = (w, Returned acc).
Proof.
  intros Hno. induction todo as [|i todo IH]; intros Hi; cbn [scan];
    [reflexivity|].
  unfold bindM at 1. unfold index at 1.
  destruct (nth_error lines i) as [line|] eqn:N.
  - unfold ret at 1. rewrite (Hno line) by (eapply nth_error_In; eauto).
    apply IH. intros; apply Hi; now right.
  - apply nth_error_None in N. specialize (Hi i (or_introl eq_refl)). lia.
Qed.

(** X21: when no line of the listing mentions [Output_Path],
    [get_status] returns [None] for every directory and removes
    [my_jobs.txt]; the other files are as before. *)
Theorem get_status_no_job (directory : string) (w : world) :
  (forall line, In line (content w "my_jobs.txt" ++ qstat) ->
     contains "Output_Path" line = false) ->
  exists w',
    get_status qstat directory w = (w', Returned None)
    /\ lookup (files w') "my_jobs.txt" = None
    /\ (forall p, p <> "my_jobs.txt"%string ->
          lookup (files w') p = lookup (files w) p)
    /\ stdout w' = stdout w.
Proof.
  intros H. rewrite get_status_steps. cbv zeta.
  rewrite scan_no_path; [|exact H | intros i Hi; apply in_seq in Hi; lia].
  eexists. split; [reflexivity|]. cbn [files stdout]. split; [|split].
  - rewrite lookup_delete. now rewrite String.eqb_refl.
  - intros p Hp. rewrite lookup_delete, lookup_store.
    destruct (String.eqb "my_jobs.txt" p) eqn:E; [|reflexivity].
    apply String.eqb_eq in E. congruence.
  - reflexivity.
Qed.

Lemma scan_last (lines : list string) (directory : string) (todo : list nat)
    (acc : option string) (w : world) (last : string) :
  nth_error lines (List.length lines - 1) = Some last ->
  contains "Output_Path" last = true ->
  In (List.length lines - 1)%nat todo ->
  scan lines directory todo acc w = (w, Raised IndexError).
Proof.
  intros Hl Hc. revert acc. induction todo as [|i todo IH]; intros acc I;
    [contradiction|].
  assert (Len : (0 < List.length lines)%nat).
  { destruct lines; [destruct (0 - 1)%nat; discriminate | simpl; lia]. }
  destruct (Nat.eq_dec i (List.length lines - 1)) as [-> | Ne].
  - cbn [scan]. unfold bindM at 1. unfold index at 1. rewrite Hl.
    unfold ret at 1. rewrite Hc. unfold bindM at 1. unfold index at 1.
    replace (List.length lines - 1 + 1)%nat with (List.length lines) by lia.
    assert (N : nth_error lines (List.length lines) = None)
      by (apply nth_error_None; lia).
    now rewrite N.
  - destruct I as [E | I]; [congruence|].
    destruct (scan_world lines directory (i :: todo) acc w) as (r & E & Hr).
    rewrite E. cbn [scan] in E.
    unfold bindM at 1 in E. unfold index at 1 in E.
    destruct (nth_error lines i) as [line|]; unfold ret, raise in E.
    2:{ injection E as <-. reflexivity. }
    destruct (contains "Output_Path" line).
    2:{ rewrite IH in E by exact I. now injection E as <-. }
    unfold bindM at 1 in E. unfold index at 1 in E.
    destruct (nth_error lines (i + 1)) as [next|]; unfold ret, raise in E.
    2:{ injection E as <-. reflexivity. }
    destruct (contains directory (strip line ++ strip next)).
    2:{ rewrite IH in E by exact I. now injection E as <-. }
    unfold bindM at 1 in E.
    destruct (find_state_world lines i w) as (r' & E' & Hr').
    rewrite E' in E. destruct r' as [state | e].
    + rewrite IH in E by exact I. now injection E as <-.
    + injection E as <-. now subst e.
Qed.

(** X22: when the last line of the listing mentions [Output_Path],
    [get_status] raises [IndexError] for every directory, and
    [my_jobs.txt] is not removed: it stays with the lines of this call
    added to those it already had. *)
Theorem get_status_cut_listing (directory : string) (w : world) (last : string) :
  let lines := content w "my_jobs.txt" ++ qstat in
  nth_error lines (List.length lines - 1) = Some last ->
  contains "Output_Path" last = true ->
  exists w',
    get_status qstat directory w = (w', Raised IndexError)
    /\ lookup (files w') "my_jobs.txt" = Some lines.
Proof.
  intros lines Hl Hc. rewrite get_status_steps. cbv zeta. fold lines.
  assert (Len : (0 < List.length lines)%nat).
  { destruct lines; [destruct (0 - 1)%nat; discriminate | simpl; lia]. }
  rewrite (scan_last lines directory _ None _ last Hl Hc)
    by (apply in_seq; lia).
  eexists. split; [reflexivity|]. cbn [files].
  rewrite lookup_store. now rewrite String.eqb_refl.
Qed.
End StatusFacts.

End UtilsFacts.

(** ** The further properties at work *)

Module MoreRuns.
Import Sample Tables Utils Desk UtilsFacts.

(** A run that is claimed to have failed is evaluated and did not. *)
Ltac ran H := vm_compute in H; discriminate H.

(** X1, witness. *)
Lemma contains_entry_member_witness : contains_entry [thio; thio] thio = true.
Proof. apply (contains_entry_member [thio; thio] thio). now left. Defined.

(** X4, witness: TiO2, for Ti is not in the table. *)
Lemma missing_ion_record_raises_witness :
  exists k, make_plot db TiO2 0 c6 = KeyError k
    /\ In k (elements (_composition TiO2)) /\ in_OH k = false
    /\ dict_get (ExpFormEnergy db) k = None.
Proof.
  apply (missing_ion_record_raises db TiO2 0 c6 "Ti").
  - now left.
  - reflexivity.
  - reflexivity.
Defined.

(** X5, witness: MoO3, for O has no end member in the table. *)
Lemma missing_end_member_raises_witness :
  exists k, make_plot db MoO3 0 c6 = KeyError k
    /\ In k (elements (_composition MoO3))
    /\ dict_get (END_MEMBERS db) k = None.
Proof.
  apply (missing_end_member_raises db MoO3 0 c6 "O").
  - intros e [<- | [<- | []]] OH; [|discriminate OH].
    eexists. reflexivity.
  - right. now left.
  - reflexivity.
Defined.

(** X6, witness: MoS2 with a table without colours; MoO4[2-] is on the
    hull. *)
Lemma missing_colour_raises_witness :
  exists k, make_plot db_plain (MoS2 1) 0 c6 = KeyError k
    /\ dict_get (ION_COLORS db_plain) k = None.
Proof.
  pose proof (missing_colour_raises db_plain (MoS2 1) 0 c6) as T.
  destruct (make_entries db_plain (MoS2 1) 0 c6) as [[pbx ions] | k] eqn:H;
    [|ran H].
  vm_compute in H. injection H as <- <-.
  eapply (T _ _ 0%nat _ eq_refl eq_refl); vm_compute; reflexivity.
Defined.

(** X7, witness: MoS2 with energy 1 and with energy -21 and tolerance
    1000. *)
Lemma ion_entries_ignore_energy_witness :
  exists pbx ions pbx',
    make_entries db (MoS2 1) 0 c6 = Ok (pbx, ions)
    /\ make_entries db (MoS2 (-21)) 1000 c6 = Ok (pbx', ions).
Proof.
  pose proof (ion_entries_ignore_energy db (MoS2 1) (MoS2 (-21)) 0 1000 c6) as T.
  destruct (make_entries db (MoS2 1) 0 c6) as [[pbx ions] | k] eqn:H; [|ran H].
  destruct (T pbx ions eq_refl eq_refl) as (pbx' & E).
  exists pbx, ions, pbx'. split; [reflexivity | exact E].
Defined.

(** X8, witness: the entry of MoO4[2-] among the entries of MoS2. *)
Lemma ion_entries_invariant_witness :
  exists pbx ions e,
    make_entries db (MoS2 1) 0 c6 = Ok (pbx, ions) /\ In e ions
    /\ name e = "MoO4[2-]"%string /\ phase_type e = IonPhase
    /\ conc e = c6.
Proof.
  pose proof (ion_entries_invariant db (MoS2 1) 0 c6) as T.
  destruct (make_entries db (MoS2 1) 0 c6) as [[pbx ions] | k] eqn:H; [|ran H].
  vm_compute in H. injection H as <- <-.
  destruct (T _ _ _ eq_refl (or_introl eq_refl))
    as (ion_dict & elt & x & c & _ & _ & _ & _ & _ & _ & P & _ & _ & _ & _ & C).
  do 3 eexists. split; [reflexivity|]. split; [now left|].
  split; [reflexivity|]. split; [exact P | exact C].
Defined.

(** X9, witness: MoO4[2-] holds Mo and has an entry. *)
Lemma ion_has_entry_iff_witness :
  exists pbx ions e,
    make_entries db (MoS2 1) 0 c6 = Ok (pbx, ions)
    /\ In e ions /\ name e = "MoO4[2-]"%string.
Proof.
  pose proof (ion_has_entry_iff db (MoS2 1) 0 c6) as T.
  destruct (make_entries db (MoS2 1) 0 c6) as [[pbx ions] | k] eqn:H; [|ran H].
  destruct (pick_ions db
              (chemsys (new_ComputedEntry (_composition (MoS2 1))
                          (_energy (MoS2 1)))) [])
    as [ion_dict | k] eqn:P; [|ran P].
  specialize (T pbx ions ion_dict "MoO4[2-]"%string eq_refl eq_refl).
  vm_compute in P. injection P as <-.
  destruct (proj2 (T (or_introl eq_refl))) as (e & I & N).
  - exists "Mo"%string. split; [now left|]. split; [reflexivity|].
    vm_compute. discriminate.
  - exists pbx, ions, e. auto.
Defined.

(** X10, witness: tungsten, whose ion record is empty. *)
Lemma no_ions_only_compound_witness :
  exists pbx, make_entries db W_metal 0 c6 = Ok (pbx, [])
    /\ all_entries pbx [] = [pbx].
Proof.
  apply (no_ions_only_compound db W_metal 0 c6).
  - intros elt [<- | []] _. reflexivity.
  - reflexivity.
Defined.

(** X11, witness: thiomolybdate is recorded with -5 under Mo and with -6
    under S; its entries hold -6. *)
Lemma last_record_wins_witness :
  exists pbx ions e,
    make_entries db_twice (MoS2 1) 0 c6 = Ok (pbx, ions)
    /\ In e ions /\ uncorrected_energy e = - (6 # 1).
Proof.
  pose proof (last_record_wins db_twice (MoS2 1) 0 c6) as T.
  destruct (make_entries db_twice (MoS2 1) 0 c6) as [[pbx ions] | k] eqn:H;
    [|ran H].
  vm_compute in H. injection H as <- <-.
  do 3 eexists. split; [reflexivity|]. split; [now left|].
  apply (T _ _ ["Mo"%string] [] "S"%string "MoS4[2-]"%string
           [("MoS4[2-]"%string, - (6 # 1))] (- (6 # 1)) _ eq_refl eq_refl eq_refl).
  - repeat constructor. simpl. tauto.
  - reflexivity.
  - intros e' tbl' [].
  - now left.
  - reflexivity.
Defined.

(** X13, witness: Mo_sv is asked for, Mo_pv is there. *)
Lemma write_potcar_concatenates_witness :
  exists w',
    write_potcar symbols "pot" (Some ["sv"; ""]%string) desk = (w', Returned tt)
    /\ lookup (files w') "POTCAR" = Some (Mo_pv_lines ++ S_lines).
Proof.
  destruct (write_potcar_concatenates symbols "pot" ["sv"; ""]%string poscar
              ("Mo S" ++ nl)%string desk) as (w' & E & P & _).
  - reflexivity.
  - reflexivity.
  - vm_compute. lia.
  - vm_compute. repeat constructor.
  - exists w'. split; [exact E|]. rewrite P. vm_compute. reflexivity.
Defined.

(** X14, witness: there is no potential for W. *)
Lemma write_potcar_missing_witness :
  exists w',
    write_potcar symbols "pot" (Some ["pv"; "pv"]%string) desk_W
    = (w', Raised (IOError "pot/W/POTCAR"))
    /\ lookup (files w') "POTCAR" = Some Mo_pv_lines.
Proof.
  pose proof (write_potcar_missing symbols "pot" poscar_W ("Mo W" ++ nl)%string
                desk_W ["Mo"%string] [] ["pv"%string] [] "W" "pv") as T.
  destruct T as (w' & E & R).
  - reflexivity.
  - reflexivity.
  - reflexivity.
  - reflexivity.
  - simpl. lia.
  - vm_compute. repeat constructor.
  - intros c I. vm_compute in I.
    repeat (destruct I as [<- | I]; [reflexivity|]). destruct I.
  - exists w'. split; [exact E|]. vm_compute in R. vm_compute. tauto.
Defined.

(** X15, witness: one type for two elements. *)
Lemma write_potcar_few_types_witness :
  exists w',
    write_potcar symbols "pot" (Some ["pv"%string]) desk = (w', Raised IndexError)
    /\ files w' = files desk.
Proof.
  apply (write_potcar_few_types symbols "pot" ["pv"%string] poscar
           ("Mo S" ++ nl)%string desk).
  - reflexivity.
  - reflexivity.
  - vm_compute. lia.
Defined.

(** X16, witness: the default types of Mo and S are pv and none. *)
Lemma write_potcar_default_types_witness :
  exists types,
    write_potcar symbols "pot" None desk
    = write_potcar symbols "pot" (Some types) desk
    /\ Forall2 (fun elt type =>
         lookup symbols elt = Some (hd ""%string (candidates elt type)))
         ["Mo"; "S"]%string types.
Proof.
  apply (write_potcar_default_types symbols "pot" poscar
           ("Mo S" ++ nl)%string desk).
  - reflexivity.
  - reflexivity.
  - change (split ("Mo S" ++ nl)) with ["Mo"; "S"]%string.
    constructor; [|constructor; [|constructor]].
    + exists "Mo_pv"%string. split; [reflexivity|].
      split; [discriminate|]. right. exists "pv"%string.
      repeat split. discriminate.
    + exists "S"%string. split; [reflexivity|].
      split; [discriminate|]. now left.
Defined.

(** X17, witness: titanium is not in the table. *)
Lemma write_potcar_unknown_element_witness :
  exists k,
    write_potcar [("Mo"%string, "Mo_pv"%string)] "pot" None desk
    = (desk, Raised (KeyErr k))
    /\ In k ["Mo"; "S"]%string
    /\ lookup [("Mo"%string, "Mo_pv"%string)] k = None.
Proof.
  apply (write_potcar_unknown_element [("Mo"%string, "Mo_pv"%string)] "pot"
           poscar ("Mo S" ++ nl)%string "S" desk).
  - reflexivity.
  - reflexivity.
  - right. now left.
  - reflexivity.
Defined.



(** X20, witness: the running job of the sample listing. *)
Lemma get_status_sound_witness :
  exists w' st i j,
    get_status qstat_running "runs/MoS2" desk = (w', Returned (Some st))
    /\ (1 <= j <= i)%nat /\ (i < List.length qstat_running)%nat.
Proof.
  pose proof (get_status_sound qstat_running "runs/MoS2" desk) as T.
  destruct (get_status qstat_running "runs/MoS2" desk) as [w' [[st|] | e]] eqn:H;
    [|ran H|ran H].
  destruct (T w' st eq_refl) as (i & j & l & n & sl & f & B & Hi & _).
  exists w', st, i, j. split; [reflexivity|]. split; [exact B|].
  apply nth_error_Some. change (content desk "my_jobs.txt" ++ qstat_running)
    with qstat_running in Hi. congruence.
Defined.

(** X21, witness: a listing without output path. *)
Lemma get_status_no_job_witness :
  exists w',
    get_status qstat_idle "runs/MoS2" desk = (w', Returned None)
    /\ lookup (files w') "my_jobs.txt" = None
    /\ lookup (files w') "POSCAR" = Some poscar.
Proof.
  destruct (get_status_no_job qstat_idle "runs/MoS2" desk) as (w' & E & N & O & _).
  - intros line I. vm_compute in I.
    repeat (destruct I as [<- | I]; [reflexivity|]). destruct I.
  - exists w'. split; [exact E|]. split; [exact N|].
    rewrite O by discriminate. reflexivity.
Defined.

(** X22, witness: the listing cut after the output path. *)
Lemma get_status_cut_listing_witness :
  exists w',
    get_status qstat_cut "runs/MoS2" desk = (w', Raised IndexError)
    /\ lookup (files w') "my_jobs.txt" = Some qstat_cut.
Proof.
  apply (get_status_cut_listing qstat_cut "runs/MoS2" desk
           ("    Output_Path = host:/home/user/runs/" ++ nl)%string).
  - reflexivity.
  - reflexivity.
Defined.
End MoreRuns.
